(** * Account and verification-token lifecycle of the venues auth service

    A shallow embedding of [services/auth.service.ts], the two Prisma
    repositories it drives, [lib/tokens.ts], [lib/errors.ts] and the
    transforms of the zod schemas, followed by the properties of the
    specification that concern them.

    Conventions of the embedding.
    - A JavaScript [Date] is its epoch value in milliseconds, a [Z].
    - JavaScript strings are modelled by [string]; letter case is ASCII
      (the e-mail grammar accepted by the schema is ASCII only).
    - A Prisma table is the list of its rows in insertion order; the
      [@unique] columns are enforced by the write primitives, which throw
      the Prisma error codes P2002 / P2025 exactly where the engine does.
    - The service is asynchronous but sequential: every [await] is a bind
      of the monad [M].  A thrown exception keeps the writes done before
      it (there is no transaction in the source).
    - The clock stands still during one call; between calls it may take
      any value.  Random bytes and database ids are read from two
      sequences carried by the state, so that a run is a function of its
      environment. *)

From Stdlib Require Import ZArith NArith List String Ascii Bool Lia.
From Stdlib Require Import Strings.Byte.
Import ListNotations.
Open Scope string_scope.

Set Implicit Arguments.

(* ------------------------------------------------------------------ *)
(** ** lib/errors.ts *)

Inductive ErrorCode : Type :=
| VALIDATION_ERROR
| AUTHENTICATION_ERROR
| AUTHORIZATION_ERROR
| NOT_FOUND
| CONFLICT
| INTERNAL_ERROR.

Record AppError : Type := mkAppError { code : ErrorCode; message : string }.

Module ErrorMessages.
Definition INVALID_CREDENTIALS := "auth.messages.invalidCredentials".
Definition EMAIL_ALREADY_EXISTS := "auth.messages.emailAlreadyExists".
Definition EMAIL_ALREADY_VERIFIED := "auth.messages.emailAlreadyVerified".
Definition USER_NOT_FOUND := "auth.messages.userNotFound".
Definition EMAIL_NOT_VERIFIED := "auth.messages.emailNotVerified".
Definition INVALID_TOKEN := "auth.messages.invalidToken".
Definition UNAUTHORIZED := "errors.unauthorized".
Definition FORBIDDEN := "errors.forbidden".
Definition INVALID_INPUT := "validation.invalid".
Definition INTERNAL_ERROR := "errors.internalError".
End ErrorMessages.

(** Whatever can be thrown: an [AppError] of the service, or an error of the
    Prisma client (known request error, by code). *)
Inductive Exn : Type :=
| ThrownAppError (e : AppError)
| ThrownPrisma (prismaCode : string).

(** The error kinds of the specification, as the pairs the service throws. *)
Definition AccountConflict : Exn :=
  ThrownAppError (mkAppError CONFLICT ErrorMessages.EMAIL_ALREADY_EXISTS).
Definition InvalidCredentials : Exn :=
  ThrownAppError (mkAppError AUTHENTICATION_ERROR ErrorMessages.INVALID_CREDENTIALS).
Definition EmailNotVerified : Exn :=
  ThrownAppError (mkAppError AUTHENTICATION_ERROR ErrorMessages.EMAIL_NOT_VERIFIED).
Definition InvalidOrExpiredToken : Exn :=
  ThrownAppError (mkAppError AUTHENTICATION_ERROR ErrorMessages.INVALID_TOKEN).
Definition AccountNotFound : Exn :=
  ThrownAppError (mkAppError NOT_FOUND ErrorMessages.USER_NOT_FOUND).
Definition AlreadyVerified : Exn :=
  ThrownAppError (mkAppError VALIDATION_ERROR ErrorMessages.EMAIL_ALREADY_VERIFIED).

(* ------------------------------------------------------------------ *)
(** ** Data model (Prisma models [User] and [VerificationToken]) *)

Inductive UserRole : Type := USER | ADMIN | MODERATOR.

Record User : Type := mkUser {
  id : string;
  name : option string;
  email : string;
  emailVerified : option Z;
  password : option string;
  image : option string;
  role : UserRole;
  createdAt : Z;
  updatedAt : Z
}.

(** The row id of a verification token is never read by the service and is
    left out; [token] is [@unique], and so is the pair
    [(identifier, token)]. *)
Record VerificationToken : Type := mkVerificationToken {
  identifier : string;
  token : string;
  expires : Z
}.

(* ------------------------------------------------------------------ *)
(** ** The world: both tables, the clock, and the two sources of fresh
       values (random bytes, database-generated cuids) *)

Record World : Type := mkWorld {
  users : list User;
  tokens : list VerificationToken;
  clock : Z;                      (* Date.now() *)
  entropy : nat -> byte;          (* crypto random source ... *)
  drawn : nat;                    (* ... and how much of it was consumed *)
  cuids : nat -> string;          (* ids the database will hand out ... *)
  minted : nat                    (* ... and how many it has handed out *)
}.

Definition set_users (us : list User) (w : World) : World :=
  mkWorld us (tokens w) (clock w) (entropy w) (drawn w) (cuids w) (minted w).
Definition set_tokens (ts : list VerificationToken) (w : World) : World :=
  mkWorld (users w) ts (clock w) (entropy w) (drawn w) (cuids w) (minted w).
Definition set_clock (t : Z) (w : World) : World :=
  mkWorld (users w) (tokens w) t (entropy w) (drawn w) (cuids w) (minted w).
Definition set_drawn (n : nat) (w : World) : World :=
  mkWorld (users w) (tokens w) (clock w) (entropy w) n (cuids w) (minted w).
Definition set_minted (n : nat) (w : World) : World :=
  mkWorld (users w) (tokens w) (clock w) (entropy w) (drawn w) (cuids w) n.

(* ------------------------------------------------------------------ *)
(** ** The monad of service code: state that survives a throw *)

Inductive Result (A : Type) : Type :=
| Ok (a : A)
| Throw (e : Exn).
Arguments Throw {A} e.

Definition M (A : Type) : Type := World -> Result A * World.

Definition ret {A} (a : A) : M A := fun w => (Ok a, w).

Definition throw {A} (e : Exn) : M A := fun w => (Throw e, w).

Definition bind {A B} (m : M A) (k : A -> M B) : M B :=
  fun w =>
    match m w with
    | (Ok a, w') => k a w'
    | (Throw e, w') => (Throw e, w')
    end.

Definition get : M World := fun w => (Ok w, w).
Definition modify (f : World -> World) : M unit := fun w => (Ok tt, f w).

Declare Scope service_scope.
Delimit Scope service_scope with service.
Notation "x <- m ;; k" := (bind m (fun x => k))
  (at level 61, m at next level, right associativity) : service_scope.
Notation "m ;;; k" := (bind m (fun _ => k))
  (at level 61, right associativity) : service_scope.
Open Scope service_scope.

(** [new AppError(code, message)] followed by [throw]. *)
Definition throwAppError {A} (c : ErrorCode) (msg : string) : M A :=
  throw (ThrownAppError (mkAppError c msg)).

(** [Date.now()] / [new Date()]. *)
Definition Date_now : M Z := fun w => (Ok (clock w), w).

(* ------------------------------------------------------------------ *)
(** ** JavaScript string helpers *)

(** [String.prototype.toLowerCase] on ASCII. *)
Definition lower_ascii (c : ascii) : ascii :=
  let n := nat_of_ascii c in
  if (Nat.leb 65 n && Nat.leb n 90)%bool then ascii_of_nat (n + 32) else c.

Fixpoint toLowerCase (s : string) : string :=
  match s with
  | EmptyString => EmptyString
  | String c s' => String (lower_ascii c) (toLowerCase s')
  end.

(** [String.prototype.trim]: white space is TAB, LF, VT, FF, CR and SPACE. *)
Definition is_space (c : ascii) : bool :=
  let n := nat_of_ascii c in
  ((Nat.leb 9 n && Nat.leb n 13) || Nat.eqb n 32)%bool.

Fixpoint trimStart (s : string) : string :=
  match s with
  | EmptyString => EmptyString
  | String c s' => if is_space c then trimStart s' else s
  end.

Fixpoint trimEnd (s : string) : string :=
  match s with
  | EmptyString => EmptyString
  | String c s' =>
      match trimEnd s' with
      | EmptyString => if is_space c then EmptyString else String c EmptyString
      | t => String c t
      end
  end.

Definition trim (s : string) : string := trimEnd (trimStart s).

(** [Buffer.prototype.toString("hex")]. *)
Definition hex_digit (n : N) : ascii :=
  match n with
  | 0%N => "0" | 1%N => "1" | 2%N => "2" | 3%N => "3"
  | 4%N => "4" | 5%N => "5" | 6%N => "6" | 7%N => "7"
  | 8%N => "8" | 9%N => "9" | 10%N => "a" | 11%N => "b"
  | 12%N => "c" | 13%N => "d" | 14%N => "e" | _ => "f"
  end%char.

Fixpoint toHex (bs : list byte) : string :=
  match bs with
  | [] => EmptyString
  | b :: bs' =>
      let n := Byte.to_N b in
      String (hex_digit (N.div n 16)) (String (hex_digit (N.modulo n 16)) (toHex bs'))
  end.

(** [crypto.randomBytes(n)]: the next [n] bytes of the random source. *)
Definition randomBytes (n : nat) : M (list byte) :=
  fun w => (Ok (map (entropy w) (seq (drawn w) n)), set_drawn (drawn w + n) w).

(** The database default [cuid()]. *)
Definition cuid : M string :=
  fun w => (Ok (cuids w (minted w)), set_minted (S (minted w)) w).

(* ------------------------------------------------------------------ *)
(** ** lib/tokens.ts *)

Definition generateVerificationToken : M string :=
  bytes <- randomBytes 32 ;;
  ret (toHex bytes).

(** The source's parameter defaults to 24 when the argument is omitted. *)
Definition DEFAULT_EXPIRY_HOURS : Z := 24.

Definition generateTokenExpiry (hours : Z) : M Z :=
  now <- Date_now ;;
  ret (now + hours * 60 * 60 * 1000)%Z.

(** A call without argument. *)
Definition generateTokenExpiry_default : M Z :=
  generateTokenExpiry DEFAULT_EXPIRY_HOURS.

Definition isTokenExpired (expiryDate : Z) : M bool :=
  now <- Date_now ;;
  ret (now >? expiryDate)%Z.

(* ------------------------------------------------------------------ *)
(** ** lib/password.ts *)

(** Modelled from the spec: [lib/password.ts] ([hashPassword],
    [verifyPassword]) is not among the sources; the specification describes
    a one-way transform with a per-call random salt embedded in the output,
    and a side-effect-free boolean check of a secret against a hash.  The
    transform itself is left abstract. *)
Class PasswordHasher : Type := {
  bcrypt_hash : string -> list byte -> string;
  bcrypt_compare : string -> string -> bool
}.

Definition SALT_BYTES : nat := 16.

Definition hashPassword `{PasswordHasher} (secret : string) : M string :=
  salt <- randomBytes SALT_BYTES ;;
  ret (bcrypt_hash secret salt).

Definition verifyPassword `{PasswordHasher} (secret hash : string) : M bool :=
  ret (bcrypt_compare secret hash).

(* ------------------------------------------------------------------ *)
(** ** Prisma client primitives on a table *)

Section Table.
Variable Row : Type.

(** [findUnique({ where })] *)
Definition findUnique (where_ : Row -> bool) (rows : list Row) : option Row :=
  find where_ rows.

(** [deleteMany({ where })] *)
Definition deleteMany (where_ : Row -> bool) (rows : list Row) : list Row :=
  filter (fun r => negb (where_ r)) rows.

(** The row selected by a unique [where] is rewritten in place. *)
Fixpoint updateWhere (where_ : Row -> bool) (f : Row -> Row) (rows : list Row)
  : list Row :=
  match rows with
  | [] => []
  | r :: rows' =>
      if where_ r then f r :: rows' else r :: updateWhere where_ f rows'
  end.

(** The row selected by a unique [where] is removed. *)
Fixpoint deleteWhere (where_ : Row -> bool) (rows : list Row) : list Row :=
  match rows with
  | [] => []
  | r :: rows' => if where_ r then rows' else r :: deleteWhere where_ rows'
  end.
End Table.

(** The two updates the user repository issues; [updatedAt] carries
    [@updatedAt] and follows the clock. *)
Definition markVerified (now : Z) (u : User) : User :=
  mkUser (id u) (name u) (email u) (Some now) (password u) (image u)
         (role u) (createdAt u) now.

Definition withPassword (hash : string) (now : Z) (u : User) : User :=
  mkUser (id u) (name u) (email u) (emailVerified u) (Some hash) (image u)
         (role u) (createdAt u) now.

(** Unique constraint failed / record to update or delete not found. *)
Definition P2002 : Exn := ThrownPrisma "P2002".
Definition P2025 : Exn := ThrownPrisma "P2025".

(* ------------------------------------------------------------------ *)
(** ** repositories/verification-token.repository.ts *)

Module verificationTokenRepository.

Definition create (data : VerificationToken) : M VerificationToken :=
  w <- get ;;
  if existsb (fun r => token r =? token data) (tokens w)
  then throw P2002
  else modify (set_tokens (tokens w ++ [data])) ;;; ret data.

Definition findByToken (identifier_ token_ : string)
  : M (option VerificationToken) :=
  w <- get ;;
  ret (findUnique
         (fun r => (identifier r =? identifier_) && (token r =? token_))%bool
         (tokens w)).

Definition findByTokenValue (token_ : string) : M (option VerificationToken) :=
  w <- get ;;
  ret (findUnique (fun r => token r =? token_) (tokens w)).

Definition delete (identifier_ token_ : string) : M unit :=
  w <- get ;;
  let where_ :=
    fun r => ((identifier r =? identifier_) && (token r =? token_))%bool in
  if existsb where_ (tokens w)
  then modify (set_tokens (deleteWhere where_ (tokens w)))
  else throw P2025.

Definition deleteByIdentifier (identifier_ : string) : M unit :=
  w <- get ;;
  modify (set_tokens (deleteMany (fun r => identifier r =? identifier_) (tokens w))).

Definition deleteExpired : M unit :=
  now <- Date_now ;;
  w <- get ;;
  modify (set_tokens (deleteMany (fun r => (expires r <? now)%Z) (tokens w))).

End verificationTokenRepository.

(* ------------------------------------------------------------------ *)
(** ** repositories/user.repository.ts
       (the generic [update], [findMany] and [count] take Prisma query
       objects and are not used by the service; they are not embedded) *)

Module userRepository.

(** [role: data.role || "USER"]; the other columns take the defaults of
    the model: a cuid, no verification date, no image, creation and
    update time now.  [id] and [email] are unique. *)
Definition create (email_ name_ password_ : string) (role_ : option UserRole)
  : M User :=
  newId <- cuid ;;
  now <- Date_now ;;
  w <- get ;;
  let row :=
    mkUser newId (Some name_) email_ None (Some password_) None
           (match role_ with Some r => r | None => USER end) now now in
  if existsb (fun u => (id u =? newId) || (email u =? email_))%bool (users w)
  then throw P2002
  else modify (set_users (users w ++ [row])) ;;; ret row.

Definition findById (id_ : string) : M (option User) :=
  w <- get ;;
  ret (findUnique (fun u => id u =? id_) (users w)).

Definition findByEmail (email_ : string) : M (option User) :=
  w <- get ;;
  ret (findUnique (fun u => email u =? toLowerCase email_) (users w)).

Definition emailExists (email_ : string) : M bool :=
  w <- get ;;
  match findUnique (fun u => email u =? toLowerCase email_) (users w) with
  | Some _ => ret true
  | None => ret false
  end.

(** [update({ where: { id }, data: { emailVerified: new Date() } })] *)
Definition verifyEmail (id_ : string) : M User :=
  now <- Date_now ;;
  w <- get ;;
  match findUnique (fun u => id u =? id_) (users w) with
  | None => throw P2025
  | Some u =>
      modify (set_users
                (updateWhere (fun u => id u =? id_) (markVerified now)
                   (users w))) ;;;
      ret (markVerified now u)
  end.

(** [update({ where: { id }, data: { password } })] *)
Definition updatePassword (id_ password_ : string) : M User :=
  now <- Date_now ;;
  w <- get ;;
  match findUnique (fun u => id u =? id_) (users w) with
  | None => throw P2025
  | Some u =>
      modify (set_users
                (updateWhere (fun u => id u =? id_) (withPassword password_ now)
                   (users w))) ;;;
      ret (withPassword password_ now u)
  end.

Definition delete (id_ : string) : M User :=
  w <- get ;;
  match findUnique (fun u => id u =? id_) (users w) with
  | None => throw P2025
  | Some u =>
      modify (set_users (deleteWhere (fun u => id u =? id_) (users w))) ;;;
      ret u
  end.

End userRepository.

(* ------------------------------------------------------------------ *)
(** ** lib/validations/auth.ts: the inferred input types, and the
       transform of [emailSchema] ([.toLowerCase().trim()]) *)

Module RegisterInput.
Record t : Type := mk { name : string; email : string; password : string }.
End RegisterInput.

Module LoginInput.
Record t : Type := mk { email : string; password : string }.
End LoginInput.

Definition emailSchema_transform (raw : string) : string :=
  trim (toLowerCase raw).

(* ------------------------------------------------------------------ *)
(** ** types/auth.ts: [UserDTO], as the object literal built by
       [toUserDTO]: own properties in order, with their values *)

Inductive JsValue : Type :=
| JsUndefined
| JsNull
| JsString (s : string)
| JsDate (ms : Z).

Definition JsObject : Type := list (string * JsValue).

(** Property read [o.k]: [undefined] when [o] has no such property. *)
Fixpoint getProp (o : JsObject) (k : string) : JsValue :=
  match o with
  | [] => JsUndefined
  | (k', v) :: o' => if k' =? k then v else getProp o' k
  end.

Definition ownKeys (o : JsObject) : list string := map fst o.

Definition nullableString (o : option string) : JsValue :=
  match o with Some s => JsString s | None => JsNull end.

Definition nullableDate (o : option Z) : JsValue :=
  match o with Some d => JsDate d | None => JsNull end.

Definition roleString (r : UserRole) : string :=
  match r with USER => "USER" | ADMIN => "ADMIN" | MODERATOR => "MODERATOR" end.

Definition UserDTO : Type := JsObject.

Record RegisterResult : Type := mkRegisterResult {
  user : UserDTO;
  verificationToken : string
}.

(* ------------------------------------------------------------------ *)
(** ** services/auth.service.ts *)

Module authService.
Section Service.
Context `{PasswordHasher}.

Definition toUserDTO (user_ : User) : UserDTO :=
  [ ("id", JsString (id user_));
    ("name", nullableString (name user_));
    ("email", JsString (email user_));
    ("emailVerified", nullableDate (emailVerified user_));
    ("image", nullableString (image user_));
    ("role", JsString (roleString (role user_)));
    ("createdAt", JsDate (createdAt user_));
    ("updatedAt", JsDate (updatedAt user_)) ].

Definition register (data : RegisterInput.t) : M RegisterResult :=
  emailExists <- userRepository.emailExists (RegisterInput.email data) ;;
  if emailExists : bool
  then throwAppError CONFLICT ErrorMessages.EMAIL_ALREADY_EXISTS
  else
    hashedPassword <- hashPassword (RegisterInput.password data) ;;
    user_ <- userRepository.create (RegisterInput.email data)
               (RegisterInput.name data) hashedPassword None ;;
    token_ <- generateVerificationToken ;;
    expires_ <- generateTokenExpiry 24 ;;
    verificationTokenRepository.create
      (mkVerificationToken (email user_) token_ expires_) ;;;
    ret (mkRegisterResult (toUserDTO user_) token_).

(** [!user || !user.password]: a missing row, a null hash and the empty
    string are all falsy.  A [Date] is always truthy, so
    [!user.emailVerified] holds exactly for null. *)
Definition login (data : LoginInput.t) : M UserDTO :=
  found <- userRepository.findByEmail (LoginInput.email data) ;;
  match found with
  | None =>
      throwAppError AUTHENTICATION_ERROR ErrorMessages.INVALID_CREDENTIALS
  | Some user_ =>
      match password user_ with
      | None =>
          throwAppError AUTHENTICATION_ERROR ErrorMessages.INVALID_CREDENTIALS
      | Some hash =>
          if hash =? EmptyString
          then throwAppError AUTHENTICATION_ERROR ErrorMessages.INVALID_CREDENTIALS
          else
            isValidPassword <- verifyPassword (LoginInput.password data) hash ;;
            if negb isValidPassword
            then throwAppError AUTHENTICATION_ERROR
                   ErrorMessages.INVALID_CREDENTIALS
            else
              match emailVerified user_ with
              | None =>
                  throwAppError AUTHENTICATION_ERROR
                    ErrorMessages.EMAIL_NOT_VERIFIED
              | Some _ => ret (toUserDTO user_)
              end
      end
  end.

Definition verifyEmail (token_ : string) : M UserDTO :=
  found <- verificationTokenRepository.findByTokenValue token_ ;;
  match found with
  | None => throwAppError AUTHENTICATION_ERROR ErrorMessages.INVALID_TOKEN
  | Some verificationToken_ =>
      expired <- isTokenExpired (expires verificationToken_) ;;
      if expired : bool
      then
        verificationTokenRepository.deleteByIdentifier
          (identifier verificationToken_) ;;;
        throwAppError AUTHENTICATION_ERROR ErrorMessages.INVALID_TOKEN
      else
        foundUser <- userRepository.findByEmail (identifier verificationToken_) ;;
        match foundUser with
        | None => throwAppError NOT_FOUND ErrorMessages.USER_NOT_FOUND
        | Some user_ =>
            verifiedUser <- userRepository.verifyEmail (id user_) ;;
            verificationTokenRepository.delete
              (identifier verificationToken_) (token verificationToken_) ;;;
            ret (toUserDTO verifiedUser)
        end
  end.

Definition resendVerification (email_ : string) : M string :=
  found <- userRepository.findByEmail email_ ;;
  match found with
  | None => throwAppError NOT_FOUND ErrorMessages.USER_NOT_FOUND
  | Some user_ =>
      match emailVerified user_ with
      | Some _ =>
          throwAppError VALIDATION_ERROR ErrorMessages.EMAIL_ALREADY_VERIFIED
      | None =>
          verificationTokenRepository.deleteByIdentifier email_ ;;;
          token_ <- generateVerificationToken ;;
          expires_ <- generateTokenExpiry 24 ;;
          verificationTokenRepository.create
            (mkVerificationToken email_ token_ expires_) ;;;
          ret token_
      end
  end.

Definition getUserById (id_ : string) : M (option UserDTO) :=
  found <- userRepository.findById id_ ;;
  ret (match found with Some user_ => Some (toUserDTO user_) | None => None end).

Definition getUserByEmail (email_ : string) : M (option UserDTO) :=
  found <- userRepository.findByEmail email_ ;;
  ret (match found with Some user_ => Some (toUserDTO user_) | None => None end).

End Service.
End authService.

(* ------------------------------------------------------------------ *)
(** ** Predicates used by the statements *)

(** An account view carries no [password] property. *)
Definition omitsCredential (o : JsObject) : Prop :=
  ~ In "password" (ownKeys o) /\ getProp o "password" = JsUndefined.

(** The property names of the [UserDTO] interface. *)
Definition UserDTO_keys : list string :=
  ["id"; "name"; "email"; "emailVerified"; "image"; "role"; "createdAt";
   "updatedAt"].

(** The account the store returns for an e-mail (lookup is by the
    lower-cased address). *)
Definition accountFor (w : World) (email_ : string) : option User :=
  findUnique (fun u => email u =? toLowerCase email_) (users w).

(** The stored token row with a given value. *)
Definition tokenRow (w : World) (token_ : string) : option VerificationToken :=
  findUnique (fun r => token r =? token_) (tokens w).

(** The rows outstanding for an identifier. *)
Definition tokensFor (w : World) (identifier_ : string) : list VerificationToken :=
  filter (fun r => identifier r =? identifier_) (tokens w).

(** What the next draws from the environment will be. *)
Definition nextCuid (w : World) : string := cuids w (minted w).

Definition nextToken (skip : nat) (w : World) : string :=
  toHex (map (entropy w) (seq (drawn w + skip) 32)).

(** The account row [register] inserts. *)
Definition newAccount `{PasswordHasher} (data : RegisterInput.t) (w : World) : User :=
  mkUser (nextCuid w) (Some (RegisterInput.name data)) (RegisterInput.email data)
         None
         (Some (bcrypt_hash (RegisterInput.password data)
                  (map (entropy w) (seq (drawn w) SALT_BYTES))))
         None USER (clock w) (clock w).

(** The token row issued for [identifier_] after [skip] bytes of the random
    source were used for something else. *)
Definition newToken (identifier_ : string) (skip : nat) (w : World)
  : VerificationToken :=
  mkVerificationToken identifier_ (nextToken skip w)
                      (clock w + 24 * 60 * 60 * 1000)%Z.

(** [token_] has just been issued: the call that took [w0] to [w] was a
    registration (on schema output, a lower-case address) or a resend, and
    it returned [token_]. *)
Definition freshlyIssued `{PasswordHasher} (w0 : World) (token_ : string)
           (w : World) : Prop :=
  (exists data r,
      toLowerCase (RegisterInput.email data) = RegisterInput.email data /\
      authService.register data w0 = (Ok r, w) /\
      verificationToken r = token_) \/
  (exists email_, authService.resendVerification email_ w0 = (Ok token_, w)).

(** The uniqueness constraints of the schema, and the two facts the service
    maintains about its rows: stored addresses are lower case, and every
    token's identifier is, up to case, the address of an account. *)
Record Inv (w : World) : Prop := mkInv {
  inv_ids : NoDup (map id (users w));
  inv_emails : NoDup (map email (users w));
  inv_tokens : NoDup (map token (tokens w));
  inv_lower : Forall (fun u => toLowerCase (email u) = email u) (users w);
  inv_resolve :
    Forall (fun r => In (toLowerCase (identifier r)) (map email (users w)))
           (tokens w)
}.

(** States the service can be in: empty tables, then any sequence of calls
    of the four mutating operations (registration on schema output, that is
    on a lower-case address) and of clock changes.  A call moves the state
    whether it returns or throws. *)
Inductive reachable `{PasswordHasher} : World -> Prop :=
| reach_init : forall t e c,
    reachable (mkWorld [] [] t e 0 c 0)
| reach_clock : forall w t,
    reachable w -> reachable (set_clock t w)
| reach_register : forall w data,
    reachable w ->
    toLowerCase (RegisterInput.email data) = RegisterInput.email data ->
    reachable (snd (authService.register data w))
| reach_login : forall w data,
    reachable w -> reachable (snd (authService.login data w))
| reach_verifyEmail : forall w token_,
    reachable w -> reachable (snd (authService.verifyEmail token_ w))
| reach_resendVerification : forall w email_,
    reachable w -> reachable (snd (authService.resendVerification email_ w)).

(* ------------------------------------------------------------------ *)
(** ** A concrete environment on which the service can be run *)

Module Demo.

(** A transparent stand-in for bcrypt: the "hash" is a fixed prefix, the
    salt in hexadecimal, a separator and the secret itself. *)
Definition demo_hash (secret : string) (salt : list byte) : string :=
  "$2b$12$" ++ toHex salt ++ "$" ++ secret.

Definition demo_compare (secret hash : string) : bool :=
  substring (8 + 2 * SALT_BYTES) (String.length hash) hash =? secret.

Definition hasher : PasswordHasher :=
  {| bcrypt_hash := demo_hash; bcrypt_compare := demo_compare |}.

Definition demo_entropy (n : nat) : byte :=
  byte_of_ascii (ascii_of_nat (n * 37 + 11)).

Definition demo_cuids (n : nat) : string :=
  "cku" ++ toHex [byte_of_ascii (ascii_of_nat n)].

(** Empty tables at the epoch. *)
Definition empty : World := mkWorld [] [] 0 demo_entropy 0 demo_cuids 0.

Definition alice : RegisterInput.t :=
  RegisterInput.mk "Alice" "a@example.com" "Sup3r$ecret".

(** State after a step, whatever its outcome. *)
Definition after {A} (m : M A) (w : World) : World := snd (m w).

(** The first two tokens the random source yields after a registration
    has taken its salt. *)
Definition T1 : string := nextToken SALT_BYTES empty.
Definition T2 : string := nextToken (SALT_BYTES + 32) empty.

Section Runs.
Context `{PasswordHasher}.

(** Alice registers at the epoch, *)
Definition registered : World :=
  after (authService.register alice) empty.

(** asks for the link again, typing her address with capitals, *)
Definition resent : World :=
  after (authService.resendVerification "A@Example.com") registered.

(** follows the first link a second later, *)
Definition verified : World :=
  after (authService.verifyEmail T1) (set_clock 1000 resent).

(** and the clock moves on another second. *)
Definition later : World := set_clock 2000 verified.

(** The first link, left unused for more than a day. *)
Definition stale : World := set_clock 86400001 registered.
End Runs.

End Demo.

(** A string that does not begin with white space. *)
Definition startsClean (s : string) : bool :=
  match s with
  | EmptyString => true
  | String c _ => negb (is_space c)
  end.

(** Every account of [w] is still an account of [w'], with its id, address
    and hash, and verified if it was. *)
Definition persists (w w' : World) : Prop :=
  forall u, In u (users w) ->
  exists u', In u' (users w') /\
             id u' = id u /\ email u' = email u /\ password u' = password u /\
             (emailVerified u <> None -> emailVerified u' <> None).

(* ------------------------------------------------------------------ *)
(** ** lib/validations/auth.ts: the password rules

    A zod string schema runs its checks in the order they were chained and
    reports one issue, with the message given, for each check that fails.
    The functions below give the messages reported for a string input. *)

Fixpoint string_exists (p : ascii -> bool) (s : string) : bool :=
  match s with
  | EmptyString => false
  | String c s' => (p c || string_exists p s')%bool
  end.

Definition in_range (lo hi : nat) (c : ascii) : bool :=
  let n := nat_of_ascii c in (Nat.leb lo n && Nat.leb n hi)%bool.

(** [/[A-Z]/], [/[a-z]/], [/[0-9]/] and [/[^A-Za-z0-9]/]. *)
Definition is_upper (c : ascii) : bool := in_range 65 90 c.
Definition is_lower (c : ascii) : bool := in_range 97 122 c.
Definition is_digit (c : ascii) : bool := in_range 48 57 c.
Definition is_special (c : ascii) : bool :=
  negb (is_upper c || is_lower c || is_digit c).

Definition check (ok : bool) (msg : string) : list string :=
  if ok then [] else [msg].

(** [passwordSchema] *)
Definition passwordSchema_issues (s : string) : list string :=
  (check (Nat.leb 8 (String.length s)) "Password must be at least 8 characters"
   ++ check (string_exists is_upper s) "Must contain at least one uppercase letter"
   ++ check (string_exists is_lower s) "Must contain at least one lowercase letter"
   ++ check (string_exists is_digit s) "Must contain at least one number"
   ++ check (string_exists is_special s)
        "Must contain at least one special character")%list.

(** The [password] field of [loginSchema]. *)
Definition loginPassword_issues (s : string) : list string :=
  check (Nat.leb 1 (String.length s)) "Password is required".

(** The [token] field of [verifyEmailSchema]. *)
Definition verifyEmailToken_issues (s : string) : list string :=
  check (Nat.leb 1 (String.length s)) "Token is required".

(** [/[0-9a-f]/] *)
Definition is_hex_lower (c : ascii) : bool :=
  (is_digit c || in_range 97 102 c)%bool.

(* ------------------------------------------------------------------ *)
(** ** Reading hexadecimal back (used to show that [toHex] loses nothing) *)

Definition unhex_digit (c : ascii) : option N :=
  let n := N_of_ascii c in
  if (N.leb 48 n && N.leb n 57)%bool then Some (n - 48)%N
  else if (N.leb 97 n && N.leb n 102)%bool then Some (n - 87)%N
  else None.

Fixpoint unhex (s : string) : option (list byte) :=
  match s with
  | EmptyString => Some []
  | String hi (String lo s') =>
      match unhex_digit hi, unhex_digit lo, unhex s' with
      | Some h, Some l, Some bs =>
          match Byte.of_N (16 * h + l) with
          | Some b => Some (b :: bs)
          | None => None
          end
      | _, _, _ => None
      end
  | String _ EmptyString => None
  end.

(* ------------------------------------------------------------------ *)
(** ** types/api.ts: [ActionResponse] *)

(** [Record<string, string[] | undefined>] *)
Definition FieldErrors : Type := list (string * list string).

Inductive ActionResponse (T : Type) : Type :=
| Success (data : T) (message_ : option string)
| Failure (error : string) (errors : option FieldErrors).
Arguments Failure {T} error errors.

(* ------------------------------------------------------------------ *)
(** ** actions/auth.actions.ts *)

Module VerifyEmailInput.
Record t : Type := mk { token : string }.
End VerifyEmailInput.

(** The [data] of a successful [resendVerificationAction]: [{ token }]. *)
Module TokenData.
Record t : Type := mk { token : string }.
End TokenData.

(** What the actions take from zod and next-intl, neither of which is code
    of this repository: the type of unvalidated input, the three [parse]
    functions (a [ZodError] or the validated value), the field errors of a
    flattened [ZodError], and the message of a key in a namespace. *)
Class Boundary : Type := {
  Unknown : Type;
  ZodError : Type;
  fieldErrors : ZodError -> FieldErrors;
  registerSchema_parse : Unknown -> ZodError + RegisterInput.t;
  loginSchema_parse : Unknown -> ZodError + LoginInput.t;
  verifyEmailSchema_parse : Unknown -> ZodError + VerifyEmailInput.t;
  getTranslations : string -> string -> string
}.

(** The string an [ErrorCode] is at run time. *)
Definition ErrorCode_string (c : ErrorCode) : string :=
  match c with
  | VALIDATION_ERROR => "VALIDATION_ERROR"
  | AUTHENTICATION_ERROR => "AUTHENTICATION_ERROR"
  | AUTHORIZATION_ERROR => "AUTHORIZATION_ERROR"
  | NOT_FOUND => "NOT_FOUND"
  | CONFLICT => "CONFLICT"
  | INTERNAL_ERROR => "INTERNAL_ERROR"
  end.

(** [record[key]] on a [Record<string, string>] literal. *)
Fixpoint recordGet (record : list (string * string)) (key : string)
  : option string :=
  match record with
  | [] => None
  | (k, v) :: record' => if k =? key then Some v else recordGet record' key
  end.

(** [a || b] on a possibly undefined string: the empty string is falsy. *)
Definition orElse (a : option string) (b : string) : string :=
  match a with
  | Some s => if s =? EmptyString then b else s
  | None => b
  end.

(** What a [catch] of an action can hold. *)
Inductive Caught `{Boundary} : Type :=
| CaughtZod (e : ZodError)
| CaughtThrow (e : Exn).

(** The answer of an action, and what it wrote with [console.error] (the
    fixed text; the rendering of the error object is not modelled). *)
Record Outcome (T : Type) : Type := mkOutcome {
  response : ActionResponse T;
  console : list string
}.

Module authActions.
Section Actions.
Context `{PasswordHasher} `{Boundary}.

Definition handleAuthError {T : Type} (error : Caught) : Outcome T :=
  let t := getTranslations "auth" in
  match error with
  | CaughtZod e =>
      mkOutcome
        (Failure (getTranslations "validation" "required")
                 (Some (fieldErrors e)))
        []
  | CaughtThrow (ThrownAppError e) =>
      let errorMessages :=
        [ ("EMAIL_EXISTS", t "messages.emailAlreadyExists");
          ("INVALID_CREDENTIALS", t "messages.invalidCredentials");
          ("EMAIL_NOT_VERIFIED", t "messages.emailNotVerified");
          ("USER_NOT_FOUND", t "messages.userNotFound");
          ("INVALID_TOKEN", t "messages.invalidToken") ] in
      mkOutcome
        (Failure (orElse (recordGet errorMessages (ErrorCode_string (code e)))
                         (message e))
                 None)
        []
  | CaughtThrow (ThrownPrisma _) =>
      mkOutcome (Failure (t "errors.unexpectedError") None)
                ["Unexpected error in auth action:"]
  end.

Definition registerAction (data : Unknown)
  : World -> Outcome RegisterResult * World :=
  fun w =>
    let t := getTranslations "auth.messages" in
    match registerSchema_parse data with
    | inl e => (handleAuthError (CaughtZod e), w)
    | inr validated =>
        match authService.register validated w with
        | (Ok result, w') =>
            (mkOutcome (Success result (Some (t "registerSuccess"))) [], w')
        | (Throw e, w') => (handleAuthError (CaughtThrow e), w')
        end
    end.

Definition loginAction (data : Unknown) : World -> Outcome UserDTO * World :=
  fun w =>
    let t := getTranslations "auth.messages" in
    match loginSchema_parse data with
    | inl e => (handleAuthError (CaughtZod e), w)
    | inr validated =>
        match authService.login validated w with
        | (Ok user_, w') =>
            (mkOutcome (Success user_ (Some (t "loginSuccess"))) [], w')
        | (Throw e, w') => (handleAuthError (CaughtThrow e), w')
        end
    end.

Definition verifyEmailAction (data : Unknown)
  : World -> Outcome UserDTO * World :=
  fun w =>
    let t := getTranslations "auth.messages" in
    match verifyEmailSchema_parse data with
    | inl e => (handleAuthError (CaughtZod e), w)
    | inr validated =>
        match authService.verifyEmail (VerifyEmailInput.token validated) w with
        | (Ok user_, w') =>
            (mkOutcome (Success user_ (Some (t "emailVerified"))) [], w')
        | (Throw e, w') => (handleAuthError (CaughtThrow e), w')
        end
    end.

Definition resendVerificationAction (email_ : string)
  : World -> Outcome TokenData.t * World :=
  fun w =>
    let t := getTranslations "auth.messages" in
    match authService.resendVerification email_ w with
    | (Ok token_, w') =>
        (mkOutcome (Success (TokenData.mk token_) (Some (t "verificationSent")))
                   [], w')
    | (Throw e, w') => (handleAuthError (CaughtThrow e), w')
    end.

Definition getUserAction (userId : string) : World -> Outcome UserDTO * World :=
  fun w =>
    let t := getTranslations "auth.messages" in
    match authService.getUserById userId w with
    | (Ok None, w') => (mkOutcome (Failure (t "userNotFound") None) [], w')
    | (Ok (Some user_), w') => (mkOutcome (Success user_ None) [], w')
    | (Throw e, w') => (handleAuthError (CaughtThrow e), w')
    end.

End Actions.
End authActions.

(* ------------------------------------------------------------------ *)
(** ** Further concrete states and a concrete boundary *)

Module Demo2.

Section Runs.
Context `{PasswordHasher}.

(** Bob is registered by a direct call of the service, capitals kept. *)
Definition bob : RegisterInput.t :=
  RegisterInput.mk "Bob" "Bob@Example.com" "Pa55w0rd!".

Definition shouting : World :=
  Demo.after (authService.register bob) Demo.empty.

(** Alice asks for the link again, typing her address as stored. *)
Definition reissued : World :=
  Demo.after (authService.resendVerification "a@example.com") Demo.registered.

(** Alice's account is deleted while her link is outstanding. *)
Definition orphaned : World :=
  Demo.after (userRepository.delete (nextCuid Demo.empty)) Demo.registered.
End Runs.

(** Tables that already hold the token the next registration will draw. *)
Definition crowded : World :=
  mkWorld [] [mkVerificationToken "z@example.com" Demo.T1 0] 0
          Demo.demo_entropy 0 Demo.demo_cuids 0.

(** A boundary for running the actions: unvalidated input is an object,
    a [ZodError] is its field errors, a message is its qualified key. *)
Definition parseRegister (o : JsObject) : FieldErrors + RegisterInput.t :=
  match getProp o "name", getProp o "email", getProp o "password" with
  | JsString n, JsString e, JsString p =>
      match passwordSchema_issues p with
      | [] => inr (RegisterInput.mk (trim n) (emailSchema_transform e) p)
      | issues => inl [("password", issues)]
      end
  | _, _, _ => inl [("form", ["Required"])]
  end.

Definition parseLogin (o : JsObject) : FieldErrors + LoginInput.t :=
  match getProp o "email", getProp o "password" with
  | JsString e, JsString p =>
      match loginPassword_issues p with
      | [] => inr (LoginInput.mk (emailSchema_transform e) p)
      | issues => inl [("password", issues)]
      end
  | _, _ => inl [("form", ["Required"])]
  end.

Definition parseVerifyEmail (o : JsObject) : FieldErrors + VerifyEmailInput.t :=
  match getProp o "token" with
  | JsString t =>
      match verifyEmailToken_issues t with
      | [] => inr (VerifyEmailInput.mk t)
      | issues => inl [("token", issues)]
      end
  | _ => inl [("token", ["Required"])]
  end.

Definition boundary : Boundary :=
  {| Unknown := JsObject;
     ZodError := FieldErrors;
     fieldErrors := fun e => e;
     registerSchema_parse := parseRegister;
     loginSchema_parse := parseLogin;
     verifyEmailSchema_parse := parseVerifyEmail;
     getTranslations := fun ns key => ns ++ "." ++ key |}.

Definition aliceForm : JsObject :=
  [("name", JsString "Alice"); ("email", JsString "A@Example.com");
   ("password", JsString "Sup3r$ecret")].

Definition wrongLogin : JsObject :=
  [("email", JsString "a@example.com"); ("password", JsString "wrong")].

Definition aliceLink : JsObject := [("token", JsString Demo.T1)].

Definition aliceSecondLink : JsObject := [("token", JsString Demo.T2)].

End Demo2.

(* ------------------------------------------------------------------ *)
(** ** Unfolding the service code *)

Ltac unfold_monad :=
  unfold throwAppError, Date_now, randomBytes, cuid, modify, get, throw, ret,
    bind in *.

Ltac unfold_repos :=
  unfold userRepository.create, userRepository.findById,
    userRepository.findByEmail, userRepository.emailExists,
    userRepository.verifyEmail,
    verificationTokenRepository.create,
    verificationTokenRepository.findByToken,
    verificationTokenRepository.findByTokenValue,
    verificationTokenRepository.delete,
    verificationTokenRepository.deleteByIdentifier,
    generateVerificationToken, generateTokenExpiry, isTokenExpired,
    hashPassword, verifyPassword in *.

Ltac unfold_service :=
  unfold authService.register, authService.login, authService.verifyEmail,
    authService.resendVerification, authService.getUserById,
    authService.getUserByEmail in *;
  unfold_repos; unfold_monad.

(** Case analysis on the scrutinee of the first [match] or [if] of a
    hypothesis. *)
Ltac split_match H :=
  match type of H with
  | context [match ?x with _ => _ end] =>
      let E := fresh "E" in destruct x eqn:E
  end.

(* ------------------------------------------------------------------ *)
(** ** Strings *)

Lemma lower_ascii_idem (c : ascii) : lower_ascii (lower_ascii c) = lower_ascii c.
Proof.
  destruct c as [[] [] [] [] [] [] [] []]; reflexivity.
Qed.

Lemma toLowerCase_idem (s : string) : toLowerCase (toLowerCase s) = toLowerCase s.
Proof.
  induction s as [| c s IH]; simpl.
  - reflexivity.
  - now rewrite lower_ascii_idem, IH.
Qed.

Lemma trimStart_lower (s : string) :
  toLowerCase s = s -> toLowerCase (trimStart s) = trimStart s.
Proof.
  induction s as [| c s IH]; simpl; intros Hs; [reflexivity |].
  injection Hs as Hc Hs.
  destruct (is_space c); [now apply IH |].
  simpl. now rewrite Hc, Hs.
Qed.

Lemma trimEnd_lower (s : string) :
  toLowerCase s = s -> toLowerCase (trimEnd s) = trimEnd s.
Proof.
  induction s as [| c s IH]; simpl; intros Hs; [reflexivity |].
  injection Hs as Hc Hs. specialize (IH Hs).
  destruct (trimEnd s) as [| c' t].
  - destruct (is_space c); simpl; [reflexivity | now rewrite Hc].
  - change (String (lower_ascii c) (toLowerCase (String c' t))
            = String c (String c' t)).
    now rewrite Hc, IH.
Qed.

(** What [emailSchema] hands to the service is a lower-case address. *)
Lemma emailSchema_transform_lower (raw : string) :
  toLowerCase (emailSchema_transform raw) = emailSchema_transform raw.
Proof.
  unfold emailSchema_transform, trim.
  apply trimEnd_lower, trimStart_lower, toLowerCase_idem.
Qed.

(* ------------------------------------------------------------------ *)
(** ** lib/tokens.ts *)

Section Properties.
Context `{PasswordHasher}.

Lemma isTokenExpired_run (expiry : Z) (w : World) :
  isTokenExpired expiry w = (Ok (clock w >? expiry)%Z, w).
Proof. reflexivity. Qed.

Lemma generateTokenExpiry_run (hours : Z) (w : World) :
  generateTokenExpiry hours w = (Ok (clock w + hours * 60 * 60 * 1000)%Z, w).
Proof. reflexivity. Qed.

(** C10: [isTokenExpired] answers true exactly when the clock is strictly
    after the expiry; hence the expiry computed for 24 hours is not expired
    at the clock value it was computed at, and is expired 24 hours and one
    second later. *)
Theorem C10_expiry_round_trip :
  (forall (w : World) (expiry : Z),
      exists b, isTokenExpired expiry w = (Ok b, w) /\
                (b = true <-> (expiry < clock w)%Z)) /\
  (forall w : World,
      exists expiry,
        generateTokenExpiry 24 w = (Ok expiry, w) /\
        isTokenExpired expiry w = (Ok false, w) /\
        let later := set_clock (clock w + 24 * 60 * 60 * 1000 + 1000)%Z w in
        isTokenExpired expiry later = (Ok true, later)).
Proof.
  split.
  - intros w expiry. exists (clock w >? expiry)%Z. split.
    + apply isTokenExpired_run.
    + rewrite Z.gtb_ltb, Z.ltb_lt. reflexivity.
  - intros w. exists (clock w + 24 * 60 * 60 * 1000)%Z. repeat split.
    + rewrite isTokenExpired_run. f_equal. f_equal.
      rewrite Z.gtb_ltb. apply Z.ltb_ge. lia.
    + cbv zeta. rewrite isTokenExpired_run. f_equal. f_equal.
      rewrite Z.gtb_ltb. apply Z.ltb_lt. simpl. lia.
Qed.

(* ------------------------------------------------------------------ *)
(** ** The sanitized account view *)

Lemma toUserDTO_keys (u : User) : ownKeys (authService.toUserDTO u) = UserDTO_keys.
Proof. reflexivity. Qed.

Lemma toUserDTO_omitsCredential (u : User) :
  omitsCredential (authService.toUserDTO u).
Proof.
  split.
  - rewrite toUserDTO_keys. unfold UserDTO_keys. simpl.
    intuition discriminate.
  - reflexivity.
Qed.

(** The view does not depend on the stored hash at all. *)
Lemma toUserDTO_ignores_password (u : User) (h : option string) :
  authService.toUserDTO
    (mkUser (id u) (name u) (email u) (emailVerified u) h (image u) (role u)
            (createdAt u) (updatedAt u))
  = authService.toUserDTO u.
Proof. reflexivity. Qed.

Lemma register_returns_view data w r w' :
  authService.register data w = (Ok r, w') ->
  exists u, user r = authService.toUserDTO u.
Proof.
  intros Hrun. unfold_service.
  repeat (split_match Hrun; try discriminate).
  all: inversion Hrun; subst; simpl; eauto.
Qed.

Lemma login_returns_view data w dto w' :
  authService.login data w = (Ok dto, w') ->
  exists u, dto = authService.toUserDTO u.
Proof.
  intros Hrun. unfold_service.
  repeat (split_match Hrun; try discriminate).
  all: inversion Hrun; subst; simpl; eauto.
Qed.

Lemma verifyEmail_returns_view token_ w dto w' :
  authService.verifyEmail token_ w = (Ok dto, w') ->
  exists u, dto = authService.toUserDTO u.
Proof.
  intros Hrun. unfold_service.
  repeat (split_match Hrun; try discriminate).
  all: inversion Hrun; subst; simpl; eauto.
Qed.

Lemma getUserById_returns_view id_ w o w' :
  authService.getUserById id_ w = (Ok o, w') ->
  o = None \/ exists u, o = Some (authService.toUserDTO u).
Proof.
  intros Hrun. unfold_service.
  inversion Hrun; subst. destruct (findUnique _ _); eauto.
Qed.

Lemma getUserByEmail_returns_view email_ w o w' :
  authService.getUserByEmail email_ w = (Ok o, w') ->
  o = None \/ exists u, o = Some (authService.toUserDTO u).
Proof.
  intros Hrun. unfold_service.
  inversion Hrun; subst. destruct (findUnique _ _); eauto.
Qed.

(** C8: whatever account view [register], [login], [verifyEmail],
    [getUserById] or [getUserByEmail] returns has exactly the properties of
    [UserDTO]; [password] is not among them, and reading it gives
    [undefined]. *)
Theorem C8_views_omit_credential :
  forall w : World,
    (forall data r w',
        authService.register data w = (Ok r, w') ->
        ownKeys (user r) = UserDTO_keys /\ omitsCredential (user r)) /\
    (forall data dto w',
        authService.login data w = (Ok dto, w') ->
        ownKeys dto = UserDTO_keys /\ omitsCredential dto) /\
    (forall token_ dto w',
        authService.verifyEmail token_ w = (Ok dto, w') ->
        ownKeys dto = UserDTO_keys /\ omitsCredential dto) /\
    (forall id_ dto w',
        authService.getUserById id_ w = (Ok (Some dto), w') ->
        ownKeys dto = UserDTO_keys /\ omitsCredential dto) /\
    (forall email_ dto w',
        authService.getUserByEmail email_ w = (Ok (Some dto), w') ->
        ownKeys dto = UserDTO_keys /\ omitsCredential dto).
Proof.
  intros w.
  repeat match goal with |- _ /\ _ => split end; intros ? ? ? Hrun.
  all: match goal with
       | Hrun : authService.register _ _ = _ |- _ =>
           apply register_returns_view in Hrun; destruct Hrun as [u ->]
       | Hrun : authService.login _ _ = _ |- _ =>
           apply login_returns_view in Hrun; destruct Hrun as [u ->]
       | Hrun : authService.verifyEmail _ _ = _ |- _ =>
           apply verifyEmail_returns_view in Hrun; destruct Hrun as [u ->]
       | Hrun : authService.getUserById _ _ = _ |- _ =>
           apply getUserById_returns_view in Hrun; destruct Hrun as [E | [u E]];
           [discriminate | injection E as ->]
       | Hrun : authService.getUserByEmail _ _ = _ |- _ =>
           apply getUserByEmail_returns_view in Hrun; destruct Hrun as [E | [u E]];
           [discriminate | injection E as ->]
       end.
  all: split; [apply toUserDTO_keys | apply toUserDTO_omitsCredential].
Qed.

(* ------------------------------------------------------------------ *)
(** ** login *)

Lemma findByEmail_run (email_ : string) (w : World) :
  userRepository.findByEmail email_ w = (Ok (accountFor w email_), w).
Proof. reflexivity. Qed.

Lemma findByTokenValue_run (token_ : string) (w : World) :
  verificationTokenRepository.findByTokenValue token_ w
  = (Ok (tokenRow w token_), w).
Proof. reflexivity. Qed.

(** The outcome of [login] is a function of the looked-up row alone. *)
Lemma login_run (data : LoginInput.t) (w : World) :
  authService.login data w =
  match accountFor w (LoginInput.email data) with
  | None => (Throw InvalidCredentials, w)
  | Some u =>
      match password u with
      | None => (Throw InvalidCredentials, w)
      | Some h =>
          if h =? EmptyString then (Throw InvalidCredentials, w)
          else if bcrypt_compare (LoginInput.password data) h
               then match emailVerified u with
                    | None => (Throw EmailNotVerified, w)
                    | Some _ => (Ok (authService.toUserDTO u), w)
                    end
               else (Throw InvalidCredentials, w)
      end
  end.
Proof.
  unfold authService.login, bind. rewrite findByEmail_run.
  destruct (accountFor w (LoginInput.email data)) as [u |]; [| reflexivity].
  destruct (password u) as [h |]; [| reflexivity].
  destruct (h =? EmptyString); [reflexivity |].
  unfold verifyPassword, ret.
  destruct (bcrypt_compare (LoginInput.password data) h); [| reflexivity].
  simpl. destruct (emailVerified u); reflexivity.
Qed.

(** C4: when no account exists for the address, when the account has no
    stored hash, and when the secret does not match the stored hash,
    [login] throws one and the same error, [InvalidCredentials], and leaves
    the state as it was. *)
Theorem C4_login_failures_share_one_error :
  forall (w : World) (data : LoginInput.t) (found : option User),
    userRepository.findByEmail (LoginInput.email data) w = (Ok found, w) ->
    found = None \/
    (exists u, found = Some u /\
               (password u = None \/ password u = Some EmptyString)) \/
    (exists u h, found = Some u /\ password u = Some h /\
                 bcrypt_compare (LoginInput.password data) h = false) ->
    authService.login data w = (Throw InvalidCredentials, w).
Proof.
  intros w data found Hfind Hcause.
  rewrite findByEmail_run in Hfind. injection Hfind as Hfind.
  rewrite login_run, Hfind.
  destruct Hcause as [-> | [(u & -> & [Hp | Hp]) | (u & h & -> & Hp & Hcmp)]].
  - reflexivity.
  - now rewrite Hp.
  - now rewrite Hp.
  - rewrite Hp, Hcmp. now destruct (h =? EmptyString).
Qed.

(* ------------------------------------------------------------------ *)
(** ** register: the conflict path *)

Lemma accountFor_In (w : World) (email_ : string) (u : User) :
  In u (users w) -> email u = toLowerCase email_ ->
  exists u', accountFor w email_ = Some u'.
Proof.
  intros Hin Hmail. unfold accountFor, findUnique.
  destruct (find _ (users w)) as [u' |] eqn:E; [eauto |].
  apply (find_none _ _ E) in Hin. rewrite Hmail, String.eqb_refl in Hin.
  discriminate.
Qed.

Lemma accountFor_Some (w : World) (email_ : string) (u : User) :
  accountFor w email_ = Some u ->
  In u (users w) /\ email u = toLowerCase email_.
Proof.
  intros E. apply find_some in E. destruct E as [Hin E].
  apply String.eqb_eq in E. auto.
Qed.

(** C2: if an account is stored under the lower-case form of the submitted
    address, whatever the letter case of the submission, [register] throws
    [AccountConflict] and the whole state (accounts, tokens, and the random
    source) is what it was before the call. *)
Theorem C2_second_registration_conflicts :
  forall (w : World) (data : RegisterInput.t) (u : User),
    In u (users w) ->
    email u = toLowerCase (RegisterInput.email data) ->
    authService.register data w = (Throw AccountConflict, w).
Proof.
  intros w data u Hin Hmail.
  destruct (accountFor_In w _ u Hin Hmail) as [u' Hfound].
  unfold authService.register, bind, userRepository.emailExists, bind, get.
  unfold accountFor in Hfound. rewrite Hfound. reflexivity.
Qed.

(* ------------------------------------------------------------------ *)
(** ** Tables: rows, keys and the write primitives *)

Section RowFacts.
Variable Row : Type.

Lemma NoDup_snoc (A : Type) (l : list A) (a : A) :
  NoDup l -> ~ In a l -> NoDup (l ++ [a]).
Proof.
  induction l as [| b l IH]; simpl; intros Hnd Hnotin.
  - constructor; [intros [] | constructor].
  - inversion Hnd as [| ? ? Hb Hl]; subst. constructor.
    + rewrite in_app_iff. simpl. intuition congruence.
    + apply IH; intuition.
Qed.

Lemma deleteWhere_incl (q : Row -> bool) (rows : list Row) (r : Row) :
  In r (deleteWhere q rows) -> In r rows.
Proof.
  induction rows as [| r0 rows IH]; simpl; [easy |].
  destruct (q r0); simpl; intuition.
Qed.

Lemma filter_all (q : Row -> bool) (rows : list Row) :
  (forall r, In r rows -> q r = true) -> filter q rows = rows.
Proof.
  induction rows as [| r rows IH]; simpl; intros Hall; [reflexivity |].
  rewrite (Hall r) by now left. f_equal. apply IH. intuition.
Qed.

Lemma Forall_deleteWhere (P : Row -> Prop) (q : Row -> bool) (rows : list Row) :
  Forall P rows -> Forall P (deleteWhere q rows).
Proof.
  rewrite !Forall_forall. intros Hall r Hin. apply Hall.
  eapply deleteWhere_incl. exact Hin.
Qed.

Lemma Forall_filter_keep (P : Row -> Prop) (q : Row -> bool) (rows : list Row) :
  Forall P rows -> Forall P (filter q rows).
Proof.
  rewrite !Forall_forall. intros Hall r Hin. apply Hall.
  apply filter_In in Hin. tauto.
Qed.
End RowFacts.

Section TableFacts.
Variable Row : Type.
Variable key : Row -> string.

Lemma existsb_key_false (k : string) (rows : list Row) :
  existsb (fun r => key r =? k) rows = false -> ~ In k (map key rows).
Proof.
  intros Hex Hin. apply in_map_iff in Hin. destruct Hin as (r & Hk & Hin).
  assert (Ht : existsb (fun r => key r =? k) rows = true).
  { apply existsb_exists. exists r. split; [exact Hin |].
    now apply String.eqb_eq. }
  congruence.
Qed.

Lemma find_key_notin (k : string) (rows : list Row) :
  ~ In k (map key rows) -> find (fun r => key r =? k) rows = None.
Proof.
  induction rows as [| r rows IH]; simpl; intros Hnotin; [reflexivity |].
  destruct (String.eqb_spec (key r) k) as [E | _].
  - exfalso. apply Hnotin. now left.
  - apply IH. intuition.
Qed.

(** Under a unique key the row found by key is any row carrying it. *)
Lemma find_key_unique (rows : list Row) (r : Row) :
  NoDup (map key rows) -> In r rows ->
  find (fun r' => key r' =? key r) rows = Some r.
Proof.
  induction rows as [| r0 rows IH]; simpl; intros Hnd Hin; [easy |].
  inversion Hnd as [| ? ? Hr0 Hrows]; subst.
  destruct Hin as [-> | Hin].
  - now rewrite String.eqb_refl.
  - destruct (String.eqb_spec (key r0) (key r)) as [E | _].
    + exfalso. apply Hr0. rewrite E. now apply in_map.
    + now apply IH.
Qed.

Lemma map_key_updateWhere (q : Row -> bool) (f : Row -> Row) (rows : list Row) :
  (forall r, key (f r) = key r) ->
  map key (updateWhere q f rows) = map key rows.
Proof.
  intros Hf. induction rows as [| r rows IH]; simpl; [reflexivity |].
  destruct (q r); simpl; [now rewrite Hf | now rewrite IH].
Qed.

Lemma Forall_updateWhere (P : Row -> Prop) (q : Row -> bool) (f : Row -> Row)
      (rows : list Row) :
  (forall r, P r -> P (f r)) ->
  Forall P rows -> Forall P (updateWhere q f rows).
Proof.
  intros Hf. induction 1 as [| r rows Hr Hrows IH]; simpl; [constructor |].
  destruct (q r); constructor; auto.
Qed.

(** A lookup that [f] does not disturb sees the updated row in place of
    the old one, when the update selects by a unique key. *)
Lemma find_updateWhere (p : Row -> bool) (f : Row -> Row) (k : string)
      (rows : list Row) :
  (forall r, p (f r) = p r) ->
  NoDup (map key rows) ->
  find p (updateWhere (fun r => key r =? k) f rows)
  = option_map (fun r => if key r =? k then f r else r) (find p rows).
Proof.
  intros Hp. induction rows as [| r rows IH]; simpl; intros Hnd; [reflexivity |].
  inversion Hnd as [| ? ? Hr Hrows]; subst.
  destruct (String.eqb_spec (key r) k) as [E | NE]; simpl.
  - rewrite Hp. destruct (p r) eqn:Epr; simpl.
    + now rewrite E, String.eqb_refl.
    + destruct (find p rows) as [r' |] eqn:Efind; simpl; [| reflexivity].
      apply find_some in Efind. destruct Efind as [Hin _].
      destruct (String.eqb_spec (key r') k) as [E' | _]; [| reflexivity].
      exfalso. apply Hr. rewrite E, <- E'. now apply in_map.
  - destruct (p r) eqn:Epr; simpl.
    + destruct (String.eqb_spec (key r) k); [contradiction | reflexivity].
    + now apply IH.
Qed.

Lemma map_key_filter_incl (q : Row -> bool) (rows : list Row) (k : string) :
  In k (map key (filter q rows)) -> In k (map key rows).
Proof.
  rewrite !in_map_iff. intros (r & Hk & Hin). exists r.
  apply filter_In in Hin. intuition.
Qed.

Lemma NoDup_map_filter (q : Row -> bool) (rows : list Row) :
  NoDup (map key rows) -> NoDup (map key (filter q rows)).
Proof.
  induction rows as [| r rows IH]; simpl; intros Hnd; [constructor |].
  inversion Hnd as [| ? ? Hr Hrows]; subst.
  destruct (q r); simpl; [| now apply IH].
  constructor; [| now apply IH].
  intros Hin. apply Hr. eapply map_key_filter_incl. exact Hin.
Qed.

(** Deleting the row selected through a unique key (possibly together
    with further conditions that row meets) removes exactly the rows
    with that key. *)
Lemma deleteWhere_unique (q : Row -> bool) (rows : list Row) (r : Row) :
  NoDup (map key rows) -> In r rows ->
  q r = true ->
  (forall r', q r' = true -> key r' = key r) ->
  deleteWhere q rows = filter (fun r' => negb (key r' =? key r)) rows.
Proof.
  intros Hnd Hin Hq Hkey. induction rows as [| r0 rows IH]; simpl; [easy |].
  inversion Hnd as [| ? ? Hr0 Hrows]; subst.
  destruct (q r0) eqn:Eq0.
  - rewrite (Hkey _ Eq0), String.eqb_refl. simpl. symmetry.
    apply filter_all. intros r' Hin'.
    destruct (String.eqb_spec (key r') (key r)) as [E | _]; [| reflexivity].
    exfalso. apply Hr0. rewrite (Hkey _ Eq0), <- E. now apply in_map.
  - destruct Hin as [-> | Hin]; [congruence |].
    destruct (String.eqb_spec (key r0) (key r)) as [E | _]; simpl.
    + exfalso. apply Hr0. rewrite E. now apply in_map.
    + f_equal. now apply IH.
Qed.

Lemma find_filter_neg (k : string) (rows : list Row) :
  find (fun r => key r =? k) (filter (fun r => negb (key r =? k)) rows) = None.
Proof.
  induction rows as [| r rows IH]; simpl; [reflexivity |].
  destruct (key r =? k) eqn:E; simpl; [exact IH | now rewrite E].
Qed.
End TableFacts.

Section MoreTableFacts.
Variable Row : Type.
Variable key : Row -> string.

Lemma NoDup_map_deleteWhere (q : Row -> bool) (rows : list Row) :
  NoDup (map key rows) -> NoDup (map key (deleteWhere q rows)).
Proof.
  induction rows as [| r rows IH]; simpl; intros Hnd; [constructor |].
  inversion Hnd as [| ? ? Hr Hrows]; subst.
  destruct (q r); simpl; [exact Hrows |].
  constructor; [| now apply IH].
  intros Hin. apply Hr. apply in_map_iff in Hin.
  destruct Hin as (r' & Hk & Hin). rewrite <- Hk. apply in_map.
  eapply deleteWhere_incl. exact Hin.
Qed.

End MoreTableFacts.

(* ------------------------------------------------------------------ *)
(** ** The invariant under the writes the service performs *)

Lemma Inv_ext (w w' : World) :
  users w' = users w -> tokens w' = tokens w -> Inv w -> Inv w'.
Proof.
  intros Hu Ht [Hid Hmail Htok Hlow Hres].
  constructor; rewrite ?Hu, ?Ht; assumption.
Qed.

Lemma Inv_add_user (w : World) (row : User) :
  Inv w ->
  ~ In (id row) (map id (users w)) ->
  ~ In (email row) (map email (users w)) ->
  toLowerCase (email row) = email row ->
  Inv (set_users (users w ++ [row]) w).
Proof.
  intros [Hid Hmail Htok Hlow Hres] Hnewid Hnewmail Hrow.
  constructor; simpl.
  - rewrite map_app. now apply NoDup_snoc.
  - rewrite map_app. now apply NoDup_snoc.
  - assumption.
  - apply Forall_app. split; [assumption | now constructor].
  - eapply Forall_impl; [| exact Hres]. intros r Hr.
    rewrite map_app, in_app_iff. now left.
Qed.

Lemma Inv_add_token (w : World) (row : VerificationToken) :
  Inv w ->
  ~ In (token row) (map token (tokens w)) ->
  In (toLowerCase (identifier row)) (map email (users w)) ->
  Inv (set_tokens (tokens w ++ [row]) w).
Proof.
  intros [Hid Hmail Htok Hlow Hres] Hnew Hrow.
  constructor; simpl; try assumption.
  - rewrite map_app. now apply NoDup_snoc.
  - apply Forall_app. split; [assumption | now constructor].
Qed.

Lemma Inv_deleteMany_tokens (w : World) (q : VerificationToken -> bool) :
  Inv w -> Inv (set_tokens (deleteMany q (tokens w)) w).
Proof.
  intros [Hid Hmail Htok Hlow Hres]. unfold deleteMany.
  constructor; simpl; try assumption.
  - now apply NoDup_map_filter.
  - now apply Forall_filter_keep.
Qed.

Lemma Inv_deleteWhere_tokens (w : World) (q : VerificationToken -> bool) :
  Inv w -> Inv (set_tokens (deleteWhere q (tokens w)) w).
Proof.
  intros [Hid Hmail Htok Hlow Hres].
  constructor; simpl; try assumption.
  - now apply NoDup_map_deleteWhere.
  - now apply Forall_deleteWhere.
Qed.

Lemma Inv_markVerified (w : World) (k : string) (now : Z) :
  Inv w ->
  Inv (set_users (updateWhere (fun u => id u =? k) (markVerified now) (users w)) w).
Proof.
  intros [Hid Hmail Htok Hlow Hres].
  constructor; simpl; try assumption.
  - now rewrite (map_key_updateWhere id).
  - now rewrite (map_key_updateWhere email).
  - now apply Forall_updateWhere.
  - now rewrite (map_key_updateWhere email).
Qed.

(* ------------------------------------------------------------------ *)
(** ** Symbolic runs of the three mutating operations *)

Lemma existsb_create_false (newId email_ : string) (us : list User) :
  existsb (fun u => (id u =? newId) || (email u =? email_))%bool us = false ->
  ~ In newId (map id us) /\ ~ In email_ (map email us).
Proof.
  intros Hex. split; apply existsb_key_false.
  all: destruct (existsb _ us) eqn:E in |- *; [| reflexivity].
  all: apply existsb_exists in E; destruct E as (u & Hin & E).
  all: assert (Ht : existsb (fun u => (id u =? newId) || (email u =? email_))%bool
                      us = true)
         by (apply existsb_exists; exists u; rewrite E;
             auto using orb_true_r).
  all: congruence.
Qed.

Lemma register_run (data : RegisterInput.t) (w : World) :
  authService.register data w =
  match accountFor w (RegisterInput.email data) with
  | Some _ => (Throw AccountConflict, w)
  | None =>
      let w1 := set_minted (S (minted w)) (set_drawn (drawn w + SALT_BYTES) w) in
      if existsb (fun u => (id u =? nextCuid w) ||
                           (email u =? RegisterInput.email data))%bool (users w)
      then (Throw P2002, w1)
      else
        let w2 := set_drawn (drawn w + SALT_BYTES + 32)
                    (set_users (users w ++ [newAccount data w]) w1) in
        if existsb (fun r => token r =? nextToken SALT_BYTES w) (tokens w)
        then (Throw P2002, w2)
        else (Ok (mkRegisterResult (authService.toUserDTO (newAccount data w))
                    (nextToken SALT_BYTES w)),
              set_tokens
                (tokens w ++ [newToken (RegisterInput.email data) SALT_BYTES w])
                w2)
  end.
Proof.
  unfold authService.register, userRepository.emailExists, accountFor.
  unfold bind at 1 2. unfold get.
  destruct (findUnique _ (users w)) as [u |]; [reflexivity |].
  unfold ret at 1. cbv zeta.
  unfold_repos. unfold_monad. simpl.
  fold (nextCuid w).
  destruct (existsb _ (users w)); [reflexivity |]. simpl.
  unfold nextToken, newToken, nextToken. simpl.
  destruct (existsb _ (tokens w)); reflexivity.
Qed.

Lemma verifyEmail_run (token_ : string) (w : World) :
  authService.verifyEmail token_ w =
  match tokenRow w token_ with
  | None => (Throw InvalidOrExpiredToken, w)
  | Some row =>
      if (clock w >? expires row)%Z
      then (Throw InvalidOrExpiredToken,
            set_tokens
              (deleteMany (fun r => identifier r =? identifier row) (tokens w)) w)
      else
        match accountFor w (identifier row) with
        | None => (Throw AccountNotFound, w)
        | Some u =>
            match findUnique (fun u' => id u' =? id u) (users w) with
            | None => (Throw P2025, w)
            | Some u0 =>
                let w1 :=
                  set_users
                    (updateWhere (fun u' => id u' =? id u)
                       (markVerified (clock w)) (users w)) w in
                let where_ := fun r =>
                  ((identifier r =? identifier row) && (token r =? token row))%bool in
                if existsb where_ (tokens w)
                then (Ok (authService.toUserDTO (markVerified (clock w) u0)),
                      set_tokens (deleteWhere where_ (tokens w)) w1)
                else (Throw P2025, w1)
            end
        end
  end.
Proof.
  unfold authService.verifyEmail, bind at 1.
  rewrite findByTokenValue_run.
  destruct (tokenRow w token_) as [row |]; [| reflexivity].
  unfold bind at 1. rewrite isTokenExpired_run.
  destruct (clock w >? expires row)%Z; [reflexivity |].
  unfold bind at 1. rewrite findByEmail_run.
  destruct (accountFor w (identifier row)) as [u |]; [| reflexivity].
  unfold_repos. unfold_monad. simpl.
  destruct (findUnique _ (users w)) as [u0 |]; [| reflexivity].
  simpl. destruct (existsb _ (tokens w)); reflexivity.
Qed.

Lemma resendVerification_run (email_ : string) (w : World) :
  authService.resendVerification email_ w =
  match accountFor w email_ with
  | None => (Throw AccountNotFound, w)
  | Some u =>
      match emailVerified u with
      | Some _ => (Throw AlreadyVerified, w)
      | None =>
          let kept := deleteMany (fun r => identifier r =? email_) (tokens w) in
          let w1 := set_drawn (drawn w + 32) (set_tokens kept w) in
          if existsb (fun r => token r =? nextToken 0 w) kept
          then (Throw P2002, w1)
          else (Ok (nextToken 0 w),
                set_tokens (kept ++ [newToken email_ 0 w]) w1)
      end
  end.
Proof.
  unfold authService.resendVerification, bind at 1.
  rewrite findByEmail_run.
  destruct (accountFor w email_) as [u |]; [| reflexivity].
  destruct (emailVerified u); [reflexivity |].
  unfold_repos. unfold_monad. simpl.
  unfold nextToken, newToken, nextToken. rewrite Nat.add_0_r. simpl.
  destruct (existsb _ _); reflexivity.
Qed.

(* ------------------------------------------------------------------ *)
(** ** The invariant holds in every reachable state *)

Lemma login_state (data : LoginInput.t) (w : World) :
  snd (authService.login data w) = w.
Proof.
  rewrite login_run.
  repeat match goal with
         | |- context [match ?x with _ => _ end] => destruct x
         end; reflexivity.
Qed.

Lemma register_preserves_Inv (data : RegisterInput.t) (w : World) :
  Inv w ->
  toLowerCase (RegisterInput.email data) = RegisterInput.email data ->
  Inv (snd (authService.register data w)).
Proof.
  intros Hinv Hlower. rewrite register_run.
  destruct (accountFor w (RegisterInput.email data)); [exact Hinv |].
  cbv zeta.
  destruct (existsb _ (users w)) eqn:Euser.
  { simpl. eapply Inv_ext; [| | exact Hinv]; reflexivity. }
  apply existsb_create_false in Euser. destruct Euser as [Hid Hmail].
  assert (Hadded : Inv (set_users (users w ++ [newAccount data w]) w))
    by now apply Inv_add_user.
  destruct (existsb _ (tokens w)) eqn:Etok.
  { simpl. eapply Inv_ext; [| | exact Hadded]; reflexivity. }
  apply (existsb_key_false token) in Etok.
  simpl.
  eapply Inv_ext;
    [| | apply (Inv_add_token
                  (newToken (RegisterInput.email data) SALT_BYTES w) Hadded)];
    try reflexivity.
  - exact Etok.
  - simpl. rewrite map_app, in_app_iff. right. simpl. now left.
Qed.

Lemma verifyEmail_preserves_Inv (token_ : string) (w : World) :
  Inv w -> Inv (snd (authService.verifyEmail token_ w)).
Proof.
  intros Hinv. rewrite verifyEmail_run.
  destruct (tokenRow w token_) as [row |]; [| exact Hinv].
  destruct (clock w >? expires row)%Z.
  { simpl. now apply Inv_deleteMany_tokens. }
  destruct (accountFor w (identifier row)) as [u |]; [| exact Hinv].
  destruct (findUnique _ (users w)); [| exact Hinv].
  cbv zeta.
  pose proof (Inv_markVerified (id u) (clock w) Hinv) as Hmarked.
  destruct (existsb _ (tokens w)); simpl; [| exact Hmarked].
  apply (Inv_deleteWhere_tokens _ Hmarked).
Qed.

Lemma resendVerification_preserves_Inv (email_ : string) (w : World) :
  Inv w -> Inv (snd (authService.resendVerification email_ w)).
Proof.
  intros Hinv. rewrite resendVerification_run.
  destruct (accountFor w email_) as [u |] eqn:Eacc; [| exact Hinv].
  destruct (emailVerified u); [exact Hinv |].
  cbv zeta.
  pose proof (Inv_deleteMany_tokens (fun r => identifier r =? email_) Hinv)
    as Hkept.
  destruct (existsb _ _) eqn:Etok; simpl.
  { eapply Inv_ext; [| | exact Hkept]; reflexivity. }
  apply (existsb_key_false token) in Etok.
  eapply Inv_ext; [| | apply (Inv_add_token (newToken email_ 0 w) Hkept)];
    try reflexivity.
  - exact Etok.
  - simpl. apply accountFor_Some in Eacc. destruct Eacc as [Hin Hmail].
    rewrite <- Hmail. now apply in_map.
Qed.

(** X20: every state the service can reach satisfies the uniqueness
    constraints of the schema, stores lower-case addresses only, and has no
    token whose identifier, lower-cased, is not the address of an account. *)
Theorem reachable_Inv (w : World) : reachable w -> Inv w.
Proof.
  induction 1 as [t e c | w t _ IH | w data _ IH Hlower | w data _ IH
                 | w token_ _ IH | w email_ _ IH].
  - constructor; simpl; constructor.
  - eapply Inv_ext; [| | exact IH]; reflexivity.
  - now apply register_preserves_Inv.
  - now rewrite login_state.
  - now apply verifyEmail_preserves_Inv.
  - now apply resendVerification_preserves_Inv.
Qed.

(* ------------------------------------------------------------------ *)
(** ** verifyEmail *)

Lemma tokenRow_Some (w : World) (token_ : string) (row : VerificationToken) :
  tokenRow w token_ = Some row -> In row (tokens w) /\ token row = token_.
Proof.
  intros E. apply find_some in E. destruct E as [Hin E].
  apply String.eqb_eq in E. auto.
Qed.

Lemma tokenRow_None (w : World) (token_ : string) :
  tokenRow w token_ = None -> ~ In token_ (map token (tokens w)).
Proof.
  intros E Hin. apply in_map_iff in Hin. destruct Hin as (r & Hr & Hin).
  apply (find_none _ _ E) in Hin. simpl in Hin.
  rewrite Hr, String.eqb_refl in Hin. discriminate.
Qed.

Lemma verifyEmail_unknown (token_ : string) (w : World) :
  tokenRow w token_ = None ->
  authService.verifyEmail token_ w = (Throw InvalidOrExpiredToken, w).
Proof. intros E. now rewrite verifyEmail_run, E. Qed.

(** The success path, on a well-formed state: the row found, the clock not
    past its expiry, and an account under its identifier. *)
Lemma verifyEmail_consumes (w : World) (token_ : string)
      (row : VerificationToken) (u : User) :
  Inv w ->
  tokenRow w token_ = Some row ->
  (clock w <= expires row)%Z ->
  accountFor w (identifier row) = Some u ->
  let w' :=
    set_tokens (filter (fun r => negb (token r =? token_)) (tokens w))
      (set_users (updateWhere (fun u' => id u' =? id u)
                    (markVerified (clock w)) (users w)) w) in
  authService.verifyEmail token_ w
  = (Ok (authService.toUserDTO (markVerified (clock w) u)), w') /\
  (forall e, accountFor w e = Some u ->
             accountFor w' e = Some (markVerified (clock w) u)) /\
  tokenRow w' token_ = None.
Proof.
  intros Hinv Hrow Hlive Hacc w'.
  destruct (tokenRow_Some _ _ Hrow) as [Hin Htok].
  destruct (accountFor_Some _ _ Hacc) as [Hu _].
  split; [| split].
  - rewrite verifyEmail_run, Hrow.
    replace (clock w >? expires row)%Z with false
      by (symmetry; rewrite Z.gtb_ltb; apply Z.ltb_ge; exact Hlive).
    rewrite Hacc.
    unfold findUnique. rewrite (find_key_unique id _ _ (inv_ids Hinv) Hu).
    cbv zeta.
    replace (existsb _ (tokens w)) with true.
    2:{ symmetry. apply existsb_exists. exists row. split; [exact Hin |].
        now rewrite !String.eqb_refl. }
    rewrite (deleteWhere_unique token _ _ row (inv_tokens Hinv) Hin).
    + subst w'. now rewrite Htok.
    + now rewrite !String.eqb_refl.
    + intros r' Hq. apply andb_true_iff in Hq. destruct Hq as [_ Hq].
      now apply String.eqb_eq in Hq.
  - intros e He. unfold accountFor, findUnique in *. subst w'. simpl.
    rewrite (find_updateWhere id);
      [| intros r; reflexivity | exact (inv_ids Hinv)].
    rewrite He. simpl. now rewrite String.eqb_refl.
  - subst w'. unfold tokenRow, findUnique. simpl.
    apply (find_filter_neg token).
Qed.

(** C6: for a stored token whose expiry is strictly before the clock,
    [verifyEmail] throws [InvalidOrExpiredToken]; the state it leaves has
    the account table untouched and no row with that token value (the rows
    of the token's identifier were deleted before the throw). *)
Theorem C6_expired_token_is_deleted :
  forall (w : World) (token_ : string) (row : VerificationToken),
    Inv w ->
    tokenRow w token_ = Some row ->
    (expires row < clock w)%Z ->
    exists w',
      authService.verifyEmail token_ w = (Throw InvalidOrExpiredToken, w') /\
      tokens w' = deleteMany (fun r => identifier r =? identifier row) (tokens w) /\
      tokenRow w' token_ = None /\
      ~ In token_ (map token (tokens w')) /\
      users w' = users w.
Proof.
  intros w token_ row Hinv Hrow Hpast.
  destruct (tokenRow_Some _ _ Hrow) as [Hin Htok].
  eexists. split.
  { rewrite verifyEmail_run, Hrow.
    replace (clock w >? expires row)%Z with true
      by (symmetry; rewrite Z.gtb_ltb; apply Z.ltb_lt; exact Hpast).
    reflexivity. }
  simpl. split; [reflexivity |].
  assert (Hgone : ~ In token_
                    (map token
                       (deleteMany (fun r => identifier r =? identifier row)
                          (tokens w)))).
  { unfold deleteMany. intros Hmap. apply in_map_iff in Hmap.
    destruct Hmap as (r & Hr & Hfil). apply filter_In in Hfil.
    destruct Hfil as [Hrin Hneq].
    assert (r = row).
    { pose proof (find_key_unique token _ _ (inv_tokens Hinv) Hrin) as E1.
      pose proof (find_key_unique token _ _ (inv_tokens Hinv) Hin) as E2.
      rewrite Hr, <- Htok in E1. congruence. }
    subst r. rewrite String.eqb_refl in Hneq. discriminate. }
  repeat split.
  - unfold tokenRow, findUnique. simpl. now apply (find_key_notin token).
  - exact Hgone.
Qed.

(* ------------------------------------------------------------------ *)
(** ** Issuing a token, then consuming it *)

Section SnocFacts.
Variable Row : Type.

Lemma find_app_none (p : Row -> bool) (l l' : list Row) :
  find p l = None -> find p (l ++ l') = find p l'.
Proof.
  induction l as [| r l IH]; simpl; [reflexivity |].
  destruct (p r); [discriminate | exact IH].
Qed.

Lemma filter_none (q : Row -> bool) (l : list Row) :
  (forall r, In r l -> q r = false) -> filter q l = [].
Proof.
  induction l as [| r l IH]; simpl; intros Hall; [reflexivity |].
  rewrite (Hall r) by now left. apply IH. intuition.
Qed.

Lemma find_snoc_key (key : Row -> string) (k : string) (l : list Row) (x : Row) :
  ~ In k (map key l) -> key x = k ->
  find (fun r => key r =? k) (l ++ [x]) = Some x.
Proof.
  intros Hfresh Hx.
  rewrite find_app_none by now apply find_key_notin.
  cbn [find]. now rewrite Hx, String.eqb_refl.
Qed.
End SnocFacts.

Lemma register_Ok (data : RegisterInput.t) (w0 w : World) (r : RegisterResult) :
  authService.register data w0 = (Ok r, w) ->
  accountFor w0 (RegisterInput.email data) = None /\
  ~ In (nextToken SALT_BYTES w0) (map token (tokens w0)) /\
  r = mkRegisterResult (authService.toUserDTO (newAccount data w0))
        (nextToken SALT_BYTES w0) /\
  users w = (users w0 ++ [newAccount data w0])%list /\
  tokens w
  = (tokens w0 ++ [newToken (RegisterInput.email data) SALT_BYTES w0])%list /\
  clock w = clock w0.
Proof.
  rewrite register_run.
  destruct (accountFor w0 (RegisterInput.email data)); [discriminate |].
  cbv zeta. destruct (existsb _ (users w0)); [discriminate |].
  destruct (existsb _ (tokens w0)) eqn:Etok; [discriminate |].
  intros E. injection E as <- <-.
  apply (existsb_key_false token) in Etok. auto 10.
Qed.

Lemma resendVerification_Ok (email_ token_ : string) (w0 w : World) :
  authService.resendVerification email_ w0 = (Ok token_, w) ->
  let kept := deleteMany (fun r => identifier r =? email_) (tokens w0) in
  (exists u, accountFor w0 email_ = Some u /\ emailVerified u = None) /\
  ~ In (nextToken 0 w0) (map token kept) /\
  token_ = nextToken 0 w0 /\
  users w = users w0 /\
  tokens w = (kept ++ [newToken email_ 0 w0])%list /\
  clock w = clock w0.
Proof.
  rewrite resendVerification_run.
  destruct (accountFor w0 email_) as [u |]; [| discriminate].
  destruct (emailVerified u) eqn:Ever; [discriminate |].
  cbv zeta. destruct (existsb _ _) eqn:Etok; [discriminate |].
  intros E. injection E as <- <-.
  apply (existsb_key_false token) in Etok. eauto 10.
Qed.

(** Right after issuance the token is stored, expires 24 hours after the
    clock of the issuing call, and its identifier names an account. *)
Lemma freshlyIssued_live (w0 w : World) (token_ : string) :
  freshlyIssued w0 token_ w ->
  exists row u,
    tokenRow w token_ = Some row /\
    expires row = (clock w0 + 24 * 60 * 60 * 1000)%Z /\
    accountFor w (identifier row) = Some u.
Proof.
  intros [(data & r & Hlower & Hrun & Htok) | (email_ & Hrun)].
  - apply register_Ok in Hrun.
    destruct Hrun as (Hnone & Hfresh & -> & Hus & Hts & _).
    simpl in Htok. subst token_.
    exists (newToken (RegisterInput.email data) SALT_BYTES w0),
           (newAccount data w0).
    repeat split.
    + unfold tokenRow, findUnique. rewrite Hts.
      now apply (find_snoc_key token).
    + unfold accountFor, findUnique in *. rewrite Hus.
      rewrite find_app_none by exact Hnone.
      cbn [find newAccount email newToken identifier].
      now rewrite Hlower, String.eqb_refl.
  - apply resendVerification_Ok in Hrun. cbv zeta in Hrun.
    destruct Hrun as ((u & Hacc & _) & Hfresh & -> & Hus & Hts & _).
    exists (newToken email_ 0 w0), u.
    repeat split.
    + unfold tokenRow, findUnique. rewrite Hts.
      now apply (find_snoc_key token).
    + unfold accountFor in *. now rewrite Hus.
Qed.

Lemma freshlyIssued_Inv (w0 w : World) (token_ : string) :
  Inv w0 -> freshlyIssued w0 token_ w -> Inv w.
Proof.
  intros Hinv [(data & r & Hlower & Hrun & _) | (email_ & Hrun)].
  - replace w with (snd (authService.register data w0)) by now rewrite Hrun.
    now apply register_preserves_Inv.
  - replace w with (snd (authService.resendVerification email_ w0))
      by now rewrite Hrun.
    now apply resendVerification_preserves_Inv.
Qed.

(** C1: a token just issued (by [register] or [resendVerification], from a
    well-formed state) and presented no later than its expiry is accepted
    once: the first [verifyEmail] returns a view whose [emailVerified] is
    the time of the call, the account carries that date, and the token row
    is gone; a second [verifyEmail] with the same token, at any later
    clock value, throws [InvalidOrExpiredToken]. *)
Theorem C1_fresh_token_verifies_exactly_once :
  forall (w0 w : World) (token_ : string) (t : Z),
    Inv w0 ->
    freshlyIssued w0 token_ w ->
    (t <= clock w0 + 24 * 60 * 60 * 1000)%Z ->
    exists row dto w1 u',
      tokenRow w token_ = Some row /\
      authService.verifyEmail token_ (set_clock t w) = (Ok dto, w1) /\
      getProp dto "emailVerified" = JsDate t /\
      accountFor w1 (identifier row) = Some u' /\
      emailVerified u' = Some t /\
      tokenRow w1 token_ = None /\
      ~ In token_ (map token (tokens w1)) /\
      forall t2,
        authService.verifyEmail token_ (set_clock t2 w1)
        = (Throw InvalidOrExpiredToken, set_clock t2 w1).
Proof.
  intros w0 w token_ t Hinv0 Hissued Hlive.
  pose proof (freshlyIssued_Inv Hinv0 Hissued) as Hinv.
  destruct (freshlyIssued_live Hissued) as (row & u & Hrow & Hexp & Hacc).
  assert (Hinvt : Inv (set_clock t w))
    by (eapply Inv_ext; [| | exact Hinv]; reflexivity).
  destruct (verifyEmail_consumes (w := set_clock t w) token_ (row := row) (u := u)
              Hinvt Hrow) as (Hrun & Hafter & Hgone).
  { simpl. rewrite Hexp. exact Hlive. }
  { exact Hacc. }
  simpl in Hrun, Hafter, Hgone.
  eexists row, _, _, (markVerified t u).
  split; [exact Hrow |].
  split; [exact Hrun |].
  split; [reflexivity |].
  split; [apply Hafter; exact Hacc |].
  split; [reflexivity |].
  split; [exact Hgone |].
  split; [apply tokenRow_None; exact Hgone |].
  intros t2. apply verifyEmail_unknown. exact Hgone.
Qed.

(* ------------------------------------------------------------------ *)
(** ** login before and after verification *)

(** C5: for an account with a stored hash that the secret matches, [login]
    on the unverified account throws [EmailNotVerified] (while a secret
    that does not match still gets [InvalidCredentials]: the credential is
    checked first); after a successful [verifyEmail] with a token of that
    account, the same pair logs in, and the view returned has the
    properties of [UserDTO] only, without [password]. *)
Theorem C5_login_gated_by_verification :
  forall (w : World) (data : LoginInput.t) (u : User) (h : string),
    Inv w ->
    accountFor w (LoginInput.email data) = Some u ->
    password u = Some h ->
    h <> EmptyString ->
    bcrypt_compare (LoginInput.password data) h = true ->
    (emailVerified u = None ->
     authService.login data w = (Throw EmailNotVerified, w) /\
     forall secret',
       bcrypt_compare secret' h = false ->
       authService.login (LoginInput.mk (LoginInput.email data) secret') w
       = (Throw InvalidCredentials, w)) /\
    (forall token_ row dto w',
        tokenRow w token_ = Some row ->
        toLowerCase (identifier row) = toLowerCase (LoginInput.email data) ->
        authService.verifyEmail token_ w = (Ok dto, w') ->
        forall t,
        exists view,
          authService.login data (set_clock t w') = (Ok view, set_clock t w') /\
          getProp view "emailVerified" = JsDate (clock w) /\
          ownKeys view = UserDTO_keys /\
          omitsCredential view).
Proof.
  intros w data u h Hinv Hacc Hpw Hne Hcmp.
  apply String.eqb_neq in Hne.
  split.
  - intros Hunverified. split.
    + now rewrite login_run, Hacc, Hpw, Hne, Hcmp, Hunverified.
    + intros secret' Hwrong.
      rewrite login_run. simpl. now rewrite Hacc, Hpw, Hne, Hwrong.
  - intros token_ row dto w' Hrow Hsame Hrun t.
    assert (Hacc' : accountFor w (identifier row) = Some u)
      by (unfold accountFor in *; now rewrite Hsame).
    rewrite verifyEmail_run, Hrow in Hrun.
    destruct (clock w >? expires row)%Z; [discriminate |].
    rewrite Hacc' in Hrun.
    destruct (findUnique _ (users w)); [| discriminate].
    cbv zeta in Hrun.
    destruct (existsb _ (tokens w)); [| discriminate].
    injection Hrun as _ <-.
    exists (authService.toUserDTO (markVerified (clock w) u)).
    split; [| split; [reflexivity | split;
      [apply toUserDTO_keys | apply toUserDTO_omitsCredential]]].
    rewrite login_run.
    replace (accountFor _ (LoginInput.email data))
      with (Some (markVerified (clock w) u)).
    { simpl. now rewrite Hpw, Hne, Hcmp. }
    unfold accountFor, findUnique in *. simpl.
    rewrite (find_updateWhere id);
      [| intros r; reflexivity | exact (inv_ids Hinv)].
    rewrite Hacc. simpl. now rewrite String.eqb_refl.
Qed.

(* ------------------------------------------------------------------ *)
(** ** register: the success path *)

Lemma existsb_create_fresh (newId email_ : string) (us : list User) :
  ~ In newId (map id us) -> ~ In email_ (map email us) ->
  existsb (fun u => (id u =? newId) || (email u =? email_))%bool us = false.
Proof.
  intros Hid Hmail.
  destruct (existsb _ us) eqn:E; [| reflexivity].
  apply existsb_exists in E. destruct E as (u & Hin & E).
  apply orb_true_iff in E. destruct E as [E | E]; apply String.eqb_eq in E.
  - exfalso. apply Hid. rewrite <- E. now apply in_map.
  - exfalso. apply Hmail. rewrite <- E. now apply in_map.
Qed.

Lemma existsb_key_fresh (Row : Type) (key : Row -> string) (k : string)
      (rows : list Row) :
  ~ In k (map key rows) -> existsb (fun r => key r =? k) rows = false.
Proof.
  intros Hfresh.
  destruct (existsb _ rows) eqn:E; [| reflexivity].
  apply existsb_exists in E. destruct E as (r & Hin & E).
  apply String.eqb_eq in E. exfalso. apply Hfresh. rewrite <- E.
  now apply in_map.
Qed.

Lemma accountFor_None (w : World) (email_ : string) :
  accountFor w email_ = None -> ~ In (toLowerCase email_) (map email (users w)).
Proof.
  intros Hnone Hin. apply in_map_iff in Hin. destruct Hin as (u & Hmail & Hin).
  destruct (accountFor_In w email_ u Hin Hmail) as [u' Hsome]. congruence.
Qed.

(** C7: on a well-formed state, for an input whose address is lower case
    (schema output) and has no account, and when the database id and the
    random token drawn are unused, [register] returns; the view has
    [emailVerified] null, the account is stored unverified, and the rows
    outstanding for that address are exactly one: the returned token,
    expiring 24 hours after the clock of the call. *)
Theorem C7_register_fresh_email :
  forall (w : World) (data : RegisterInput.t),
    Inv w ->
    toLowerCase (RegisterInput.email data) = RegisterInput.email data ->
    accountFor w (RegisterInput.email data) = None ->
    ~ In (nextCuid w) (map id (users w)) ->
    ~ In (nextToken SALT_BYTES w) (map token (tokens w)) ->
    exists r w',
      authService.register data w = (Ok r, w') /\
      getProp (user r) "emailVerified" = JsNull /\
      (exists u, accountFor w' (RegisterInput.email data) = Some u /\
                 emailVerified u = None /\
                 user r = authService.toUserDTO u) /\
      tokensFor w' (RegisterInput.email data)
      = [mkVerificationToken (RegisterInput.email data) (verificationToken r)
           (clock w + 24 * 60 * 60 * 1000)%Z].
Proof.
  intros w data Hinv Hlower Hnone Hid Htok.
  pose proof (accountFor_None _ _ Hnone) as Hmail. rewrite Hlower in Hmail.
  eexists _, _. split.
  { rewrite register_run, Hnone. cbv zeta.
    rewrite (existsb_create_fresh _ _ _ Hid Hmail).
    rewrite (existsb_key_fresh token _ _ Htok). reflexivity. }
  split; [reflexivity |].
  split.
  - exists (newAccount data w). repeat split.
    unfold accountFor, findUnique in *. simpl.
    rewrite find_app_none by exact Hnone.
    cbn [find newAccount email]. now rewrite Hlower, String.eqb_refl.
  - unfold tokensFor. simpl. rewrite filter_app.
    rewrite filter_none.
    + cbn [filter newToken identifier app]. now rewrite String.eqb_refl.
    + intros r Hin.
      destruct (String.eqb_spec (identifier r) (RegisterInput.email data))
        as [E | _]; [| reflexivity].
      exfalso. apply Hmail.
      pose proof (inv_resolve Hinv) as Hres. rewrite Forall_forall in Hres.
      specialize (Hres r Hin). now rewrite E, Hlower in Hres.
Qed.

(* ------------------------------------------------------------------ *)
(** ** resendVerification *)

(** What a successful resend guarantees: the rows whose identifier is the
    argument as typed are replaced by the one new row. *)
Lemma resendVerification_replaces (email_ token_ : string) (w w' : World) :
  authService.resendVerification email_ w = (Ok token_, w') ->
  tokensFor w' email_
  = [mkVerificationToken email_ token_ (clock w + 24 * 60 * 60 * 1000)%Z].
Proof.
  intros Hrun. apply resendVerification_Ok in Hrun. cbv zeta in Hrun.
  destruct Hrun as (_ & _ & -> & _ & Hts & _).
  unfold tokensFor. rewrite Hts, filter_app, filter_none.
  - cbn [filter newToken identifier app]. now rewrite String.eqb_refl.
  - intros r Hin. unfold deleteMany in Hin. apply filter_In in Hin.
    destruct Hin as [_ Hneg]. now apply negb_true_iff in Hneg.
Qed.

(** C3, evaluated where it fails: Alice's account is stored under
    [a@example.com] with one outstanding token; [resendVerification] is
    called with [A@Example.com].  The account is found (the lookup lower-cases)
    but the deletion and the new row use the argument as typed, so the old
    row stays, two rows now resolve to the account, and the old token still
    verifies it. *)
Theorem C3_mixed_case_resend_keeps_old_token :
  let w := Demo.registered in
  let old := mkVerificationToken "a@example.com" Demo.T1 86400000 in
  let new := mkVerificationToken "A@Example.com" Demo.T2 86400000 in
  tokens w = [old] /\
  (exists u, accountFor w "A@Example.com" = Some u /\
             email u = "a@example.com" /\ emailVerified u = None) /\
  exists w',
    authService.resendVerification "A@Example.com" w = (Ok Demo.T2, w') /\
    tokens w' = [old; new] /\
    accountFor w' (identifier old) = accountFor w' (identifier new) /\
    exists dto w'',
      authService.verifyEmail Demo.T1 w' = (Ok dto, w'') /\
      getProp dto "email" = JsString "a@example.com" /\
      getProp dto "emailVerified" = JsDate 0.
Proof.
  cbv zeta. split; [vm_compute; reflexivity |]. split.
  - exists (newAccount Demo.alice Demo.empty).
    repeat split; vm_compute; reflexivity.
  - exists Demo.resent. repeat split; try (vm_compute; reflexivity).
    exists (authService.toUserDTO
              (markVerified 0 (newAccount Demo.alice Demo.empty))),
           (Demo.after (authService.verifyEmail Demo.T1) Demo.resent).
    repeat split; vm_compute; reflexivity.
Qed.

(* ------------------------------------------------------------------ *)
(** ** verifyEmail on an account that is already verified *)

(** C9: there is a reachable state with an unexpired token whose account is
    already verified; [verifyEmail] accepts the token and replaces the
    verification date by the clock, where [resendVerification] for the same
    account throws [AlreadyVerified]. *)
Theorem C9_verifyEmail_overwrites_verification_date :
  exists (w : World) (token_ : string) (row : VerificationToken) (u : User)
         (t0 : Z) (dto : UserDTO) (w' : World),
    reachable w /\
    tokenRow w token_ = Some row /\
    (clock w <= expires row)%Z /\
    accountFor w (identifier row) = Some u /\
    emailVerified u = Some t0 /\
    t0 <> clock w /\
    authService.verifyEmail token_ w = (Ok dto, w') /\
    getProp dto "emailVerified" = JsDate (clock w) /\
    (exists u', accountFor w' (identifier row) = Some u' /\
                emailVerified u' = Some (clock w)) /\
    authService.resendVerification (email u) w = (Throw AlreadyVerified, w).
Proof.
  exists Demo.later, Demo.T2,
         (mkVerificationToken "A@Example.com" Demo.T2 86400000),
         (markVerified 1000 (newAccount Demo.alice Demo.empty)),
         1000%Z,
         (authService.toUserDTO
            (markVerified 2000 (newAccount Demo.alice Demo.empty))),
         (Demo.after (authService.verifyEmail Demo.T2) Demo.later).
  split.
  { unfold Demo.later, Demo.verified, Demo.resent, Demo.registered, Demo.after.
    apply reach_clock, reach_verifyEmail, reach_clock,
      reach_resendVerification, reach_register;
      [apply reach_init | vm_compute; reflexivity]. }
  split; [vm_compute; reflexivity |].
  split; [vm_compute; discriminate |].
  split; [vm_compute; reflexivity |].
  split; [vm_compute; reflexivity |].
  split; [vm_compute; discriminate |].
  split; [vm_compute; reflexivity |].
  split; [vm_compute; reflexivity |].
  split; [| vm_compute; reflexivity].
  exists (markVerified 2000 (newAccount Demo.alice Demo.empty)).
  split; vm_compute; reflexivity.
Qed.

End Properties.

(* ================================================================== *)
(** * Further properties of the code *)

Section Extras.
Context `{PasswordHasher}.

(* ------------------------------------------------------------------ *)
(** ** lib/tokens.ts *)

Lemma toHex_length (bs : list byte) :
  String.length (toHex bs) = 2 * List.length bs.
Proof.
  induction bs as [| b bs IH]; simpl; [reflexivity |]. rewrite IH. lia.
Qed.

Lemma hex_digits_of_byte (b : byte) :
  is_hex_lower (hex_digit (N.div (Byte.to_N b) 16)) = true /\
  is_hex_lower (hex_digit (N.modulo (Byte.to_N b) 16)) = true.
Proof. destruct b; vm_compute; split; reflexivity. Qed.

Lemma toHex_chars (bs : list byte) :
  string_exists (fun c => negb (is_hex_lower c)) (toHex bs) = false.
Proof.
  induction bs as [| b bs IH]; [reflexivity |].
  destruct (hex_digits_of_byte b) as [Hhi Hlo].
  cbn [toHex string_exists]. now rewrite Hhi, Hlo, IH.
Qed.

Lemma unhex_byte (b : byte) :
  unhex_digit (hex_digit (N.div (Byte.to_N b) 16))
  = Some (N.div (Byte.to_N b) 16) /\
  unhex_digit (hex_digit (N.modulo (Byte.to_N b) 16))
  = Some (N.modulo (Byte.to_N b) 16) /\
  Byte.of_N (16 * N.div (Byte.to_N b) 16 + N.modulo (Byte.to_N b) 16) = Some b.
Proof. destruct b; vm_compute; repeat split; reflexivity. Qed.

Lemma unhex_toHex (bs : list byte) : unhex (toHex bs) = Some bs.
Proof.
  induction bs as [| b bs IH]; [reflexivity |].
  destruct (unhex_byte b) as (Hhi & Hlo & Hb).
  cbn [toHex unhex]. now rewrite Hhi, Hlo, IH, Hb.
Qed.

(** X1: [generateVerificationToken] always returns; the token has 64
    characters, all of them in [0-9a-f] (so it passes the rule of
    [verifyEmailSchema]); exactly 32 bytes of the random source are used
    and nothing else of the state changes. *)
Theorem X1_token_is_64_hex_characters :
  forall w : World,
  exists token_,
    generateVerificationToken w = (Ok token_, set_drawn (drawn w + 32) w) /\
    String.length token_ = 64 /\
    string_exists (fun c => negb (is_hex_lower c)) token_ = false /\
    verifyEmailToken_issues token_ = [].
Proof.
  intros w. eexists. split; [reflexivity |].
  assert (Hlen : String.length
                   (toHex (map (entropy w) (seq (drawn w) 32))) = 64).
  { now rewrite toHex_length, length_map, length_seq. }
  split; [exact Hlen |]. split; [apply toHex_chars |].
  unfold verifyEmailToken_issues. now rewrite Hlen.
Qed.

(** X2: the token determines the 32 random bytes it was made from: two
    calls that return the same token drew the same bytes. *)
Theorem X2_equal_tokens_come_from_equal_bytes :
  forall w1 w2 : World,
    fst (generateVerificationToken w1) = fst (generateVerificationToken w2) ->
    map (entropy w1) (seq (drawn w1) 32) = map (entropy w2) (seq (drawn w2) 32).
Proof.
  intros w1 w2 Heq.
  set (bs1 := map (entropy w1) (seq (drawn w1) 32)) in *.
  set (bs2 := map (entropy w2) (seq (drawn w2) 32)) in *.
  change (Ok (toHex bs1) = Ok (toHex bs2)) in Heq.
  apply (f_equal (fun r => match r with
                           | Ok t => unhex t
                           | Throw _ => None
                           end)) in Heq.
  cbv beta match in Heq. rewrite !unhex_toHex in Heq.
  congruence.
Qed.


(* ------------------------------------------------------------------ *)
(** ** repositories/verification-token.repository.ts *)

Section KeyedRows.
Variable Row : Type.
Variable key : Row -> string.

Lemma find_app_other (k : string) (l : list Row) (x : Row) :
  key x <> k ->
  find (fun r => key r =? k) (l ++ [x]) = find (fun r => key r =? k) l.
Proof.
  intros Hx. induction l as [| r l IH]; simpl.
  - now destruct (String.eqb_spec (key x) k).
  - now destruct (key r =? k).
Qed.

Lemma find_filter_other (k k' : string) (l : list Row) :
  k' <> k ->
  find (fun r => key r =? k') (filter (fun r => negb (key r =? k)) l)
  = find (fun r => key r =? k') l.
Proof.
  intros Hk. induction l as [| r l IH]; simpl; [reflexivity |].
  destruct (String.eqb_spec (key r) k) as [E | NE]; simpl.
  - destruct (String.eqb_spec (key r) k') as [E' | _]; [congruence | exact IH].
  - now rewrite IH.
Qed.

Lemma filter_filter_other (k k' : string) (l : list Row) :
  k' <> k ->
  filter (fun r => key r =? k') (filter (fun r => negb (key r =? k)) l)
  = filter (fun r => key r =? k') l.
Proof.
  intros Hk. induction l as [| r l IH]; simpl; [reflexivity |].
  destruct (String.eqb_spec (key r) k) as [E | NE]; simpl.
  - destruct (String.eqb_spec (key r) k') as [E' | _]; [congruence | exact IH].
  - now rewrite IH.
Qed.

Lemma filter_filter_same (k : string) (l : list Row) :
  filter (fun r => key r =? k) (filter (fun r => negb (key r =? k)) l) = [].
Proof.
  induction l as [| r l IH]; simpl; [reflexivity |].
  destruct (key r =? k) eqn:E; simpl; [exact IH | now rewrite E].
Qed.
End KeyedRows.

Section FilteredRows.
Variable Row : Type.

Lemma filter_idem (q : Row -> bool) (l : list Row) :
  filter q (filter q l) = filter q l.
Proof.
  induction l as [| r l IH]; simpl; [reflexivity |].
  destruct (q r) eqn:E; simpl; [now rewrite E, IH | exact IH].
Qed.

Lemma find_filter_kept (p q : Row -> bool) (l : list Row) (r : Row) :
  find p l = Some r -> q r = true -> find p (filter q l) = Some r.
Proof.
  induction l as [| r0 l IH]; simpl; [discriminate |].
  destruct (p r0) eqn:Ep.
  - intros E Hq. injection E as ->. simpl. now rewrite Hq; simpl; rewrite Ep.
  - intros E Hq. destruct (q r0); simpl; [rewrite Ep |]; now apply IH.
Qed.
End FilteredRows.

(** X4: [create] stores the row iff its token value is not yet stored,
    whatever the identifier.  If it is unused, the row is then returned both
    by [findByTokenValue] and by [findByToken], and the lookup of every other
    token value is as before; if it is used, P2002 is thrown and the state
    is unchanged. *)
Theorem X4_token_create_then_find :
  forall (w : World) (data : VerificationToken),
    (~ In (token data) (map token (tokens w)) ->
     exists w',
       verificationTokenRepository.create data w = (Ok data, w') /\
       users w' = users w /\
       verificationTokenRepository.findByTokenValue (token data) w'
       = (Ok (Some data), w') /\
       verificationTokenRepository.findByToken (identifier data) (token data) w'
       = (Ok (Some data), w') /\
       forall t, t <> token data -> tokenRow w' t = tokenRow w t) /\
    (In (token data) (map token (tokens w)) ->
     verificationTokenRepository.create data w = (Throw P2002, w)).
Proof.
  intros w data. split.
  - intros Hfresh. eexists. split.
    { unfold verificationTokenRepository.create, bind, get.
      rewrite (existsb_key_fresh token _ _ Hfresh). reflexivity. }
    split; [reflexivity |]. split; [| split].
    + rewrite findByTokenValue_run. unfold tokenRow, findUnique. simpl.
      f_equal. f_equal. now apply (find_snoc_key token).
    + unfold verificationTokenRepository.findByToken, bind, get, ret, findUnique.
      simpl. rewrite find_app_none.
      * simpl. now rewrite !String.eqb_refl.
      * destruct (find _ (tokens w)) as [r |] eqn:E; [| reflexivity].
        apply find_some in E. destruct E as [Hin E].
        apply andb_true_iff in E. destruct E as [_ E].
        apply String.eqb_eq in E. exfalso. apply Hfresh. rewrite <- E.
        now apply in_map.
    + intros t Ht. unfold tokenRow, findUnique. simpl.
      apply (find_app_other token). congruence.
  - intros Hused. unfold verificationTokenRepository.create, bind, get.
    replace (existsb _ (tokens w)) with true; [reflexivity |].
    symmetry. apply in_map_iff in Hused. destruct Hused as (r & Hr & Hin).
    apply existsb_exists. exists r. split; [exact Hin |].
    now apply String.eqb_eq.
Qed.

(** X5: [delete] of a pair that is not stored (also a stored token value
    under another identifier) throws P2025 and changes nothing; [delete] of
    a stored pair, token values being unique, removes that row only: its
    token value is no longer found and every other lookup is as before. *)
Theorem X5_token_delete :
  forall (w : World) (identifier_ token_ : string),
    ((forall r, In r (tokens w) ->
                ~ (identifier r = identifier_ /\ token r = token_)) ->
     verificationTokenRepository.delete identifier_ token_ w = (Throw P2025, w)) /\
    (forall r,
        NoDup (map token (tokens w)) ->
        In r (tokens w) -> identifier r = identifier_ -> token r = token_ ->
        exists w',
          verificationTokenRepository.delete identifier_ token_ w = (Ok tt, w') /\
          users w' = users w /\
          tokenRow w' token_ = None /\
          forall t, t <> token_ -> tokenRow w' t = tokenRow w t).
Proof.
  intros w identifier_ token_. split.
  - intros Hmissing.
    unfold verificationTokenRepository.delete, bind, get.
    replace (existsb _ (tokens w)) with false; [reflexivity |].
    symmetry. destruct (existsb _ (tokens w)) eqn:E; [| reflexivity].
    apply existsb_exists in E. destruct E as (r & Hin & E).
    apply andb_true_iff in E. destruct E as [Ei Et].
    apply String.eqb_eq in Ei, Et. exfalso. now apply (Hmissing r).
  - intros r Hnd Hin Hi Ht.
    assert (Hq : ((identifier r =? identifier_) && (token r =? token_))%bool
                 = true)
      by (rewrite Hi, Ht, !String.eqb_refl; reflexivity).
    eexists. split.
    { unfold verificationTokenRepository.delete, bind, get.
      replace (existsb _ (tokens w)) with true; [reflexivity |].
      symmetry. apply existsb_exists. now exists r. }
    split; [reflexivity |].
    unfold tokenRow, findUnique. simpl.
    rewrite (deleteWhere_unique token _ _ r Hnd Hin Hq).
    2:{ intros r' Hq'. apply andb_true_iff in Hq'. destruct Hq' as [_ Hq'].
        apply String.eqb_eq in Hq'. congruence. }
    rewrite Ht. split.
    + apply (find_filter_neg token).
    + intros t Hneq. now apply (find_filter_other token).
Qed.

(** X6: [deleteByIdentifier] never throws, also when nothing matches; it
    leaves no row with exactly that identifier, keeps the rows of every
    other identifier (another letter case is another identifier) in their
    order, does not touch the accounts, and doing it twice is doing it
    once. *)
Theorem X6_deleteByIdentifier :
  forall (w : World) (identifier_ : string),
  exists w',
    verificationTokenRepository.deleteByIdentifier identifier_ w = (Ok tt, w') /\
    users w' = users w /\
    tokensFor w' identifier_ = [] /\
    (forall other, other <> identifier_ ->
                   tokensFor w' other = tokensFor w other) /\
    verificationTokenRepository.deleteByIdentifier identifier_ w' = (Ok tt, w').
Proof.
  intros w identifier_. eexists. split; [reflexivity |].
  split; [reflexivity |]. unfold tokensFor, deleteMany. simpl.
  split; [apply (filter_filter_same identifier) |].
  split.
  - intros other Hneq. now apply (filter_filter_other identifier).
  - unfold verificationTokenRepository.deleteByIdentifier, bind, get, modify,
      set_tokens, deleteMany. simpl. now rewrite filter_idem.
Qed.

(** X7: [deleteExpired] never throws and keeps exactly the rows that
    [isTokenExpired] does not call expired at the same clock (a row whose
    expiry equals the clock stays); accounts and clock are untouched. *)
Theorem X7_deleteExpired_agrees_with_isTokenExpired :
  forall w : World,
  exists w',
    verificationTokenRepository.deleteExpired w = (Ok tt, w') /\
    users w' = users w /\
    clock w' = clock w /\
    forall r,
      In r (tokens w') <->
      In r (tokens w) /\ isTokenExpired (expires r) w = (Ok false, w).
Proof.
  intros w. eexists. split; [reflexivity |].
  split; [reflexivity |]. split; [reflexivity |].
  intros r. simpl. unfold deleteMany. rewrite filter_In, isTokenExpired_run.
  rewrite Z.gtb_ltb, negb_true_iff.
  split; intros [Hin E]; (split; [exact Hin |]).
  - now rewrite E.
  - now injection E.
Qed.

(* ------------------------------------------------------------------ *)
(** ** repositories/user.repository.ts *)

(** X8: [create] with an unused id and an unused lower-case address stores
    an unverified account with the given hash and the default role, leaves
    the tokens alone, and the account is then returned by [findById] for its
    id and by [findByEmail] for the address in any letter case; when the id
    or the exact address is taken, P2002 is thrown and no row is added. *)
Theorem X8_user_create_then_find :
  forall (w : World) (email_ name_ password_ : string) (role_ : option UserRole),
    (toLowerCase email_ = email_ ->
     ~ In (nextCuid w) (map id (users w)) ->
     ~ In email_ (map email (users w)) ->
     exists u w',
       userRepository.create email_ name_ password_ role_ w = (Ok u, w') /\
       id u = nextCuid w /\ email u = email_ /\ emailVerified u = None /\
       password u = Some password_ /\
       role u = match role_ with Some r => r | None => USER end /\
       tokens w' = tokens w /\
       userRepository.findById (id u) w' = (Ok (Some u), w') /\
       forall e, toLowerCase e = email_ ->
                 userRepository.findByEmail e w' = (Ok (Some u), w')) /\
    (In (nextCuid w) (map id (users w)) \/ In email_ (map email (users w)) ->
     exists w',
       userRepository.create email_ name_ password_ role_ w = (Throw P2002, w') /\
       users w' = users w /\ tokens w' = tokens w).
Proof.
  intros w email_ name_ password_ role_. split.
  - intros Hlower Hid Hmail. eexists _, _. split.
    { unfold userRepository.create, bind, cuid, Date_now, get. cbn [fst snd].
      fold (nextCuid w). cbn [users set_minted].
      rewrite (existsb_create_fresh _ _ _ Hid Hmail). reflexivity. }
    repeat (split; [reflexivity |]). split.
    + unfold userRepository.findById, bind, get, ret, findUnique. simpl.
      f_equal. f_equal. now apply (find_snoc_key id).
    + intros e He. rewrite findByEmail_run. f_equal. f_equal.
      unfold accountFor, findUnique. simpl. rewrite He.
      now apply (find_snoc_key email).
  - intros Hused. eexists. split.
    { unfold userRepository.create, bind, cuid, Date_now, get. cbn [fst snd].
      fold (nextCuid w). cbn [users set_minted].
      replace (existsb _ (users w)) with true; [reflexivity |].
      symmetry. apply existsb_exists.
      destruct Hused as [Hin | Hin]; apply in_map_iff in Hin;
        destruct Hin as (u & Hu & Hin); exists u; (split; [exact Hin |]);
        rewrite Hu, String.eqb_refl; auto using orb_true_r. }
    split; reflexivity.
Qed.

(** X9: an account stored under an address that is not lower case is never
    returned by [findByEmail], whatever address is asked for. *)
Theorem X9_mixed_case_rows_are_never_found :
  forall (w : World) (u : User),
    In u (users w) ->
    toLowerCase (email u) <> email u ->
    forall e, userRepository.findByEmail e w <> (Ok (Some u), w).
Proof.
  intros w u _ Hmixed e Hfound. rewrite findByEmail_run in Hfound.
  injection Hfound as Hfound. apply accountFor_Some in Hfound.
  destruct Hfound as [_ Hmail]. apply Hmixed.
  now rewrite Hmail, toLowerCase_idem.
Qed.

Lemma find_by_id (w : World) (u : User) :
  Inv w -> In u (users w) ->
  findUnique (fun u' => id u' =? id u) (users w) = Some u.
Proof.
  intros Hinv Hin. unfold findUnique.
  exact (find_key_unique id _ _ (inv_ids Hinv) Hin).
Qed.

(** X10: [updatePassword] for an id that is not stored throws P2025 and
    changes nothing.  For a stored account it replaces the hash and leaves
    tokens and verification date alone; from then on [login] is decided by
    the new hash alone. *)
Theorem X10_updatePassword_then_login :
  forall (w : World),
    (forall id_ hash',
        ~ In id_ (map id (users w)) ->
        userRepository.updatePassword id_ hash' w = (Throw P2025, w)) /\
    (forall (data : LoginInput.t) (u : User) (hash' : string),
        Inv w ->
        accountFor w (LoginInput.email data) = Some u ->
        hash' <> EmptyString ->
        exists w',
          userRepository.updatePassword (id u) hash' w
          = (Ok (withPassword hash' (clock w) u), w') /\
          tokens w' = tokens w /\
          authService.login data w'
          = (if bcrypt_compare (LoginInput.password data) hash'
             then match emailVerified u with
                  | None => Throw EmailNotVerified
                  | Some _ =>
                      Ok (authService.toUserDTO (withPassword hash' (clock w) u))
                  end
             else Throw InvalidCredentials,
             w')).
Proof.
  intros w. split.
  - intros id_ hash' Hmissing.
    unfold userRepository.updatePassword, bind, Date_now, get, findUnique.
    cbn [fst snd]. now rewrite (find_key_notin id _ _ Hmissing).
  - intros data u hash' Hinv Hacc Hne.
    destruct (accountFor_Some _ _ Hacc) as [Hin _].
    eexists. split.
    { unfold userRepository.updatePassword, bind, Date_now, get.
      cbn [fst snd]. rewrite (@find_by_id w u Hinv Hin). reflexivity. }
    split; [reflexivity |].
    rewrite login_run.
    replace (accountFor _ (LoginInput.email data))
      with (Some (withPassword hash' (clock w) u)).
    2:{ unfold accountFor, findUnique in *. simpl.
        rewrite (find_updateWhere id);
          [| intros r; reflexivity | exact (inv_ids Hinv)].
        rewrite Hacc. simpl. now rewrite String.eqb_refl. }
    cbn [password withPassword emailVerified].
    apply String.eqb_neq in Hne. rewrite Hne.
    destruct (bcrypt_compare _ hash'); [| reflexivity].
    destruct (emailVerified u); reflexivity.
Qed.

(** X11: [delete] of an account does not delete its tokens.  With a live
    token of the deleted account [verifyEmail] throws [AccountNotFound], and
    the token stays in the table. *)
Theorem X11_deleted_account_leaves_its_tokens :
  forall (w : World) (token_ : string) (row : VerificationToken) (u : User),
    Inv w ->
    tokenRow w token_ = Some row ->
    (clock w <= expires row)%Z ->
    accountFor w (identifier row) = Some u ->
    exists w',
      userRepository.delete (id u) w = (Ok u, w') /\
      tokens w' = tokens w /\
      accountFor w' (identifier row) = None /\
      authService.verifyEmail token_ w' = (Throw AccountNotFound, w').
Proof.
  intros w token_ row u Hinv Hrow Hlive Hacc.
  destruct (accountFor_Some _ _ Hacc) as [Hin Hmail].
  eexists. split.
  { unfold userRepository.delete, bind, get. cbn [fst snd].
    rewrite (@find_by_id w u Hinv Hin). reflexivity. }
  split; [reflexivity |].
  assert (Hgone : accountFor
                    (set_users (deleteWhere (fun u' => id u' =? id u) (users w)) w)
                    (identifier row) = None).
  { unfold accountFor, findUnique. simpl.
    rewrite (deleteWhere_unique id _ _ u (inv_ids Hinv) Hin);
      [| apply String.eqb_refl
       | intros r' Hq; now apply String.eqb_eq in Hq].
    destruct (find _ (filter _ (users w))) as [r |] eqn:E; [| reflexivity].
    apply find_some in E. destruct E as [Hfil Hr].
    apply filter_In in Hfil. destruct Hfil as [Hrin Hneq].
    apply String.eqb_eq in Hr.
    pose proof (find_key_unique email _ _ (inv_emails Hinv) Hrin) as E1.
    pose proof (find_key_unique email _ _ (inv_emails Hinv) Hin) as E2.
    rewrite Hr, <- Hmail in E1. rewrite E2 in E1. injection E1 as ->.
    rewrite String.eqb_refl in Hneq. discriminate. }
  split; [exact Hgone |].
  rewrite verifyEmail_run.
  change (tokenRow (set_users _ w) token_) with (tokenRow w token_).
  rewrite Hrow. cbn [clock set_users].
  replace (clock w >? expires row)%Z with false
    by (symmetry; rewrite Z.gtb_ltb; apply Z.ltb_ge; exact Hlive).
  now rewrite Hgone.
Qed.

(* ------------------------------------------------------------------ *)
(** ** services/auth.service.ts *)

(** X12: the two failures of [verifyEmail] that leave the state as it was:
    a token value that is not stored ([InvalidOrExpiredToken]), and a stored,
    unexpired token whose identifier names no account ([AccountNotFound]);
    in the second case the token is not consumed. *)
Theorem X12_verifyEmail_failures_without_effect :
  forall (w : World) (token_ : string),
    (tokenRow w token_ = None ->
     authService.verifyEmail token_ w = (Throw InvalidOrExpiredToken, w)) /\
    (forall row,
        tokenRow w token_ = Some row ->
        (clock w <= expires row)%Z ->
        accountFor w (identifier row) = None ->
        authService.verifyEmail token_ w = (Throw AccountNotFound, w)).
Proof.
  intros w token_. split.
  - apply verifyEmail_unknown.
  - intros row Hrow Hlive Hnone. rewrite verifyEmail_run, Hrow.
    replace (clock w >? expires row)%Z with false
      by (symmetry; rewrite Z.gtb_ltb; apply Z.ltb_ge; exact Hlive).
    now rewrite Hnone.
Qed.

(** X13: when [verifyEmail] meets an expired token it deletes every row
    that carries the same identifier, expired or not; the rows of other
    identifiers are found as before. *)
Theorem X13_expired_token_takes_its_siblings :
  forall (w : World) (token_ : string) (row : VerificationToken),
    tokenRow w token_ = Some row ->
    (expires row < clock w)%Z ->
    let w' := snd (authService.verifyEmail token_ w) in
    (forall r, In r (tokens w) -> identifier r = identifier row ->
               ~ In r (tokens w')) /\
    (forall t r, tokenRow w t = Some r -> identifier r <> identifier row ->
                 tokenRow w' t = Some r).
Proof.
  intros w token_ row Hrow Hpast.
  rewrite verifyEmail_run, Hrow.
  replace (clock w >? expires row)%Z with true
    by (symmetry; rewrite Z.gtb_ltb; apply Z.ltb_lt; exact Hpast).
  cbn [snd]. unfold deleteMany. split.
  - intros r _ Hsame Hin. simpl in Hin. apply filter_In in Hin.
    destruct Hin as [_ Hneq]. rewrite Hsame, String.eqb_refl in Hneq.
    discriminate.
  - intros t r Hfound Hother. unfold tokenRow, findUnique in *. simpl.
    apply find_filter_kept; [exact Hfound |].
    now destruct (String.eqb_spec (identifier r) (identifier row)).
Qed.

(** X14: [resendVerification] for an address without account throws
    [AccountNotFound], for a verified account [AlreadyVerified]; the two
    errors differ, and in both cases no token is created or deleted. *)
Theorem X14_resend_failures_without_effect :
  forall (w : World) (email_ : string),
    (accountFor w email_ = None ->
     authService.resendVerification email_ w = (Throw AccountNotFound, w)) /\
    (forall u t,
        accountFor w email_ = Some u -> emailVerified u = Some t ->
        authService.resendVerification email_ w = (Throw AlreadyVerified, w)) /\
    AccountNotFound <> AlreadyVerified.
Proof.
  intros w email_. split; [| split].
  - intros Hnone. now rewrite resendVerification_run, Hnone.
  - intros u t Hacc Hver. now rewrite resendVerification_run, Hacc, Hver.
  - discriminate.
Qed.

(** X15: a successful [resendVerification] leaves exactly one row with the
    identifier as typed, the new one; rows of other identifiers and the
    accounts are untouched; and, token values being unique, a token that
    was outstanding for that identifier and differs from the new one is
    rejected from then on. *)
Theorem X15_resend_replaces_rows_of_the_identifier :
  forall (w w' : World) (email_ token_ : string),
    Inv w ->
    authService.resendVerification email_ w = (Ok token_, w') ->
    tokensFor w' email_
    = [mkVerificationToken email_ token_ (clock w + 24 * 60 * 60 * 1000)%Z] /\
    users w' = users w /\
    (forall other, other <> email_ -> tokensFor w' other = tokensFor w other) /\
    (forall old t,
        In old (tokensFor w email_) -> token old <> token_ ->
        authService.verifyEmail (token old) (set_clock t w')
        = (Throw InvalidOrExpiredToken, set_clock t w')).
Proof.
  intros w w' email_ token_ Hinv Hrun.
  split; [now apply resendVerification_replaces |].
  apply resendVerification_Ok in Hrun. cbv zeta in Hrun.
  destruct Hrun as (_ & _ & -> & Hus & Hts & _).
  split; [exact Hus |]. split.
  - intros other Hother. unfold tokensFor. rewrite Hts, filter_app.
    unfold deleteMany. rewrite (filter_filter_other identifier) by exact Hother.
    cbn [filter newToken identifier].
    destruct (String.eqb_spec email_ other); [congruence | apply app_nil_r].
  - intros old t Hold Hneq. apply verifyEmail_unknown.
    unfold tokensFor in Hold. apply filter_In in Hold.
    destruct Hold as [Hin Hid]. apply String.eqb_eq in Hid.
    unfold tokenRow, findUnique. cbn [tokens set_clock]. rewrite Hts.
    rewrite (find_app_other token)
      by (cbn [token newToken]; congruence).
    apply (find_key_notin token). intros Hmap.
    apply in_map_iff in Hmap. destruct Hmap as (r & Hr & Hkept).
    unfold deleteMany in Hkept. apply filter_In in Hkept.
    destruct Hkept as [Hrin Hrid].
    pose proof (find_key_unique token _ _ (inv_tokens Hinv) Hrin) as E1.
    pose proof (find_key_unique token _ _ (inv_tokens Hinv) Hin) as E2.
    rewrite Hr, E2 in E1. injection E1 as <-.
    rewrite Hid, String.eqb_refl in Hrid. discriminate.
Qed.

Lemma persists_same_users (w w' : World) : users w' = users w -> persists w w'.
Proof.
  intros Hus u Hin. exists u. rewrite Hus. auto.
Qed.

Lemma persists_appended (w w' : World) (u0 : User) :
  users w' = (users w ++ [u0])%list -> persists w w'.
Proof.
  intros Hus u Hin. exists u. rewrite Hus, in_app_iff. auto.
Qed.

Lemma persists_markVerified (w w' : World) (k : string) (now : Z) :
  users w' = updateWhere (fun u => id u =? k) (markVerified now) (users w) ->
  persists w w'.
Proof.
  intros Hus u Hin. rewrite Hus. clear Hus.
  induction (users w) as [| r l IH]; [destruct Hin |].
  cbn [updateWhere]. destruct Hin as [-> | Hin].
  - destruct (id u =? k).
    + exists (markVerified now u). repeat split; [now left | discriminate].
    + exists u. repeat split; [now left | auto].
  - destruct (id r =? k).
    + exists u. repeat split; [now right | auto].
    + destruct (IH Hin) as (u' & Hin' & Hrest). exists u'. split; [now right | auto].
Qed.

(** X16: no operation of the service removes an account, changes its id,
    address or hash, or makes a verified account unverified. *)
Theorem X16_accounts_persist_and_stay_verified :
  forall w : World,
    (forall data, persists w (snd (authService.register data w))) /\
    (forall data, persists w (snd (authService.login data w))) /\
    (forall token_, persists w (snd (authService.verifyEmail token_ w))) /\
    (forall email_, persists w (snd (authService.resendVerification email_ w))).
Proof.
  intros w. repeat match goal with |- _ /\ _ => split end.
  - intros data. rewrite register_run.
    destruct (accountFor w _); [now apply persists_same_users |].
    cbv zeta. destruct (existsb _ (users w)); [now apply persists_same_users |].
    destruct (existsb _ (tokens w)); eapply persists_appended; reflexivity.
  - intros data. rewrite login_state. now apply persists_same_users.
  - intros token_. rewrite verifyEmail_run.
    destruct (tokenRow w token_) as [row |]; [| now apply persists_same_users].
    destruct (clock w >? expires row)%Z; [now apply persists_same_users |].
    destruct (accountFor w (identifier row)) as [u |];
      [| now apply persists_same_users].
    destruct (findUnique _ (users w)); [| now apply persists_same_users].
    cbv zeta.
    destruct (existsb _ (tokens w)); eapply persists_markVerified; reflexivity.
  - intros email_. rewrite resendVerification_run.
    destruct (accountFor w email_) as [u |]; [| now apply persists_same_users].
    destruct (emailVerified u); [now apply persists_same_users |].
    cbv zeta. destruct (existsb _ _); now apply persists_same_users.
Qed.

(** X17: [login] and [getUserByEmail] depend on the address only up to
    letter case, and neither changes the state. *)
Theorem X17_lookups_ignore_letter_case :
  forall (w : World) (e1 e2 secret : string),
    toLowerCase e1 = toLowerCase e2 ->
    authService.login (LoginInput.mk e1 secret) w
    = authService.login (LoginInput.mk e2 secret) w /\
    authService.getUserByEmail e1 w = authService.getUserByEmail e2 w /\
    snd (authService.login (LoginInput.mk e1 secret) w) = w /\
    snd (authService.getUserByEmail e1 w) = w.
Proof.
  intros w e1 e2 secret Hsame.
  assert (Hacc : accountFor w e1 = accountFor w e2)
    by (unfold accountFor; now rewrite Hsame).
  split; [| split; [| split]].
  - rewrite !login_run. cbn [LoginInput.email LoginInput.password].
    now rewrite Hacc.
  - unfold authService.getUserByEmail, bind. rewrite !findByEmail_run.
    now rewrite Hacc.
  - apply login_state.
  - reflexivity.
Qed.

Lemma register_Ok_fresh_id (data : RegisterInput.t) (w w' : World)
      (r : RegisterResult) :
  authService.register data w = (Ok r, w') ->
  ~ In (nextCuid w) (map id (users w)).
Proof.
  rewrite register_run.
  destruct (accountFor w (RegisterInput.email data)); [discriminate |].
  cbv zeta. destruct (existsb _ (users w)) eqn:Euser; [discriminate |].
  intros _. now apply existsb_create_false in Euser.
Qed.

(** X18: the view returned by a successful [register] is the one
    [getUserByEmail] returns afterwards for the address in any letter case,
    and the one [getUserById] returns for the id in the view. *)
Theorem X18_register_then_lookup :
  forall (w w' : World) (data : RegisterInput.t) (r : RegisterResult),
    toLowerCase (RegisterInput.email data) = RegisterInput.email data ->
    authService.register data w = (Ok r, w') ->
    (forall e, toLowerCase e = RegisterInput.email data ->
               authService.getUserByEmail e w' = (Ok (Some (user r)), w')) /\
    (exists i, getProp (user r) "id" = JsString i /\
               authService.getUserById i w' = (Ok (Some (user r)), w')).
Proof.
  intros w w' data r Hlower Hrun.
  pose proof (register_Ok_fresh_id _ _ Hrun) as Hid.
  apply register_Ok in Hrun.
  destruct Hrun as (Hnone & _ & -> & Hus & _ & _).
  split.
  - intros e He. unfold authService.getUserByEmail, bind.
    rewrite findByEmail_run. unfold accountFor, findUnique in *.
    rewrite Hus, He, <- Hlower. rewrite find_app_none by exact Hnone.
    cbn [find newAccount email]. now rewrite Hlower, String.eqb_refl.
  - exists (nextCuid w). split; [reflexivity |].
    unfold authService.getUserById, userRepository.findById, bind, get, ret,
      findUnique.
    rewrite Hus.
    replace (find _ (users w ++ [newAccount data w]))
      with (Some (newAccount data w)); [reflexivity |].
    symmetry. now apply (find_snoc_key id).
Qed.

(** X19: [register] is not atomic.  When the token drawn is already stored,
    the call throws P2002 after the account was created: the account exists
    unverified, no token was stored for it, and registering again is
    refused with [AccountConflict]. *)
Theorem X19_register_token_collision :
  forall (w : World) (data : RegisterInput.t),
    toLowerCase (RegisterInput.email data) = RegisterInput.email data ->
    accountFor w (RegisterInput.email data) = None ->
    ~ In (nextCuid w) (map id (users w)) ->
    In (nextToken SALT_BYTES w) (map token (tokens w)) ->
    exists w',
      authService.register data w = (Throw P2002, w') /\
      tokens w' = tokens w /\
      accountFor w' (RegisterInput.email data) = Some (newAccount data w) /\
      emailVerified (newAccount data w) = None /\
      authService.register data w' = (Throw AccountConflict, w').
Proof.
  intros w data Hlower Hnone Hid Hused.
  pose proof (accountFor_None _ _ Hnone) as Hmail. rewrite Hlower in Hmail.
  assert (Hacc : accountFor
                   (set_users (users w ++ [newAccount data w]) w)
                   (RegisterInput.email data) = Some (newAccount data w)).
  { unfold accountFor, findUnique in *. simpl.
    rewrite find_app_none by exact Hnone.
    cbn [find newAccount email]. now rewrite Hlower, String.eqb_refl. }
  eexists. split.
  { rewrite register_run, Hnone. cbv zeta.
    rewrite (existsb_create_fresh _ _ _ Hid Hmail).
    replace (existsb _ (tokens w)) with true; [reflexivity |].
    symmetry. apply in_map_iff in Hused. destruct Hused as (r & Hr & Hin).
    apply existsb_exists. exists r. split; [exact Hin |].
    now apply String.eqb_eq. }
  split; [reflexivity |]. split; [exact Hacc |]. split; [reflexivity |].
  rewrite register_run.
  change (accountFor (set_drawn _ _) (RegisterInput.email data))
    with (accountFor (set_users (users w ++ [newAccount data w]) w)
            (RegisterInput.email data)).
  now rewrite Hacc.
Qed.

(* ------------------------------------------------------------------ *)
(** ** lib/validations/auth.ts *)

Lemma trimEnd_cons (c : ascii) (s : string) :
  trimEnd (String c s)
  = match trimEnd s with
    | EmptyString => if is_space c then EmptyString else String c EmptyString
    | t => String c t
    end.
Proof. reflexivity. Qed.

Lemma trimEnd_idem (s : string) : trimEnd (trimEnd s) = trimEnd s.
Proof.
  induction s as [| c s IH]; [reflexivity |].
  rewrite trimEnd_cons. destruct (trimEnd s) as [| a t] eqn:E.
  - destruct (is_space c) eqn:Ec; [reflexivity |].
    rewrite trimEnd_cons. cbn [trimEnd]. now rewrite Ec.
  - rewrite trimEnd_cons. now rewrite IH.
Qed.

Lemma trimStart_startsClean (s : string) : startsClean (trimStart s) = true.
Proof.
  induction s as [| c s IH]; [reflexivity |]. cbn [trimStart].
  destruct (is_space c) eqn:Ec; [exact IH |]. cbn [startsClean]. now rewrite Ec.
Qed.

Lemma trimEnd_startsClean (s : string) :
  startsClean s = true -> startsClean (trimEnd s) = true.
Proof.
  destruct s as [| c s]; [reflexivity |]. cbn [startsClean]. intros Hc.
  rewrite trimEnd_cons. apply negb_true_iff in Hc. rewrite Hc.
  destruct (trimEnd s); cbn [startsClean]; now rewrite Hc.
Qed.

Lemma trimStart_fixed (s : string) : startsClean s = true -> trimStart s = s.
Proof.
  destruct s as [| c s]; [reflexivity |]. cbn [startsClean trimStart].
  intros Hc. apply negb_true_iff in Hc. now rewrite Hc.
Qed.

Lemma trim_idem (s : string) : trim (trim s) = trim s.
Proof.
  unfold trim.
  rewrite (trimStart_fixed (trimEnd (trimStart s)))
    by apply trimEnd_startsClean, trimStart_startsClean.
  apply trimEnd_idem.
Qed.

(** X21: what [emailSchema] makes of an input is lower case and has no
    white space at either end, and normalising it again changes nothing. *)
Theorem X21_emailSchema_transform_is_idempotent :
  forall raw : string,
    toLowerCase (emailSchema_transform raw) = emailSchema_transform raw /\
    trim (emailSchema_transform raw) = emailSchema_transform raw /\
    emailSchema_transform (emailSchema_transform raw) = emailSchema_transform raw.
Proof.
  intros raw.
  assert (Hlower : toLowerCase (emailSchema_transform raw)
                   = emailSchema_transform raw)
    by (unfold emailSchema_transform, trim;
        apply trimEnd_lower, trimStart_lower, toLowerCase_idem).
  assert (Htrim : trim (emailSchema_transform raw) = emailSchema_transform raw)
    by apply trim_idem.
  split; [exact Hlower |]. split; [exact Htrim |].
  unfold emailSchema_transform at 1. now rewrite Hlower.
Qed.

(** X22: a password that [passwordSchema] accepts at registration is
    accepted by the password rule of [loginSchema]. *)
Theorem X22_registered_passwords_pass_the_login_rule :
  forall s : string,
    passwordSchema_issues s = [] -> loginPassword_issues s = [].
Proof.
  intros s Hok. unfold passwordSchema_issues in Hok.
  apply app_eq_nil in Hok. destruct Hok as [Hlen _].
  unfold loginPassword_issues, check in *.
  destruct (Nat.leb 8 (String.length s)) eqn:E; [| discriminate].
  apply Nat.leb_le in E.
  replace (Nat.leb 1 (String.length s)) with true; [reflexivity |].
  symmetry. apply Nat.leb_le. lia.
Qed.

(* ------------------------------------------------------------------ *)
(** ** actions/auth.actions.ts *)

Section ActionFacts.
Context `{Boundary}.

(** X23: for every [AppError], whatever the translations are,
    [handleAuthError] answers with the error's own [message] (the
    translation key the service put there): no code of [ErrorCode] is a key
    of its table of translated messages.  Nothing is written to the
    console. *)
Theorem X23_app_errors_are_answered_with_their_message :
  forall (T : Type) (e : AppError),
    authActions.handleAuthError (T := T) (CaughtThrow (ThrownAppError e))
    = mkOutcome (Failure (message e) None) [].
Proof.
  intros T [c m]. destruct c; reflexivity.
Qed.

(** X24: for input that passes [loginSchema], [loginAction] gives one and
    the same answer, with the state unchanged, when no account has the
    address, when the account has no hash, and when the secret does not
    match. *)
Theorem X24_loginAction_failures_share_one_answer :
  forall (w : World) (data : Unknown) (validated : LoginInput.t),
    loginSchema_parse data = inr validated ->
    accountFor w (LoginInput.email validated) = None \/
    (exists u, accountFor w (LoginInput.email validated) = Some u /\
               password u = None) \/
    (exists u h, accountFor w (LoginInput.email validated) = Some u /\
                 password u = Some h /\
                 bcrypt_compare (LoginInput.password validated) h = false) ->
    authActions.loginAction data w
    = (mkOutcome (Failure ErrorMessages.INVALID_CREDENTIALS None) [], w).
Proof.
  intros w data validated Hparse Hcause.
  assert (Hlogin : authService.login validated w = (Throw InvalidCredentials, w)).
  { rewrite login_run.
    destruct Hcause as [-> | [(u & -> & Hp) | (u & h & -> & Hp & Hcmp)]].
    - reflexivity.
    - now rewrite Hp.
    - rewrite Hp, Hcmp. now destruct (h =? EmptyString). }
  unfold authActions.loginAction. now rewrite Hparse, Hlogin.
Qed.

Lemma registerAction_Success (w w' : World) (data : Unknown)
      (validated : RegisterInput.t) (r : RegisterResult) (msg : option string)
      (out : list string) :
  registerSchema_parse data = inr validated ->
  authActions.registerAction data w = (mkOutcome (Success r msg) out, w') ->
  authService.register validated w = (Ok r, w').
Proof.
  intros Hparse Hrun. unfold authActions.registerAction in Hrun.
  rewrite Hparse in Hrun.
  destruct (authService.register validated w) as [[r0 | e] w0].
  - now injection Hrun as -> _ _ ->.
  - exfalso. destruct e as [e | c]; [destruct e as [c m]; destruct c |];
      discriminate Hrun.
Qed.

(** X25: the answer of a successful [registerAction] carries the token
    itself; on a well-formed state, handing that token to
    [verifyEmailAction] right away verifies the account, without anything
    having been read from an e-mail. *)
Theorem X25_register_answer_suffices_to_verify :
  forall (w w' : World) (data data' : Unknown) (validated : RegisterInput.t)
         (r : RegisterResult) (msg : option string) (out : list string),
    Inv w ->
    registerSchema_parse data = inr validated ->
    toLowerCase (RegisterInput.email validated) = RegisterInput.email validated ->
    authActions.registerAction data w = (mkOutcome (Success r msg) out, w') ->
    verifyEmailSchema_parse data'
    = inr (VerifyEmailInput.mk (verificationToken r)) ->
    exists view w'',
      authActions.verifyEmailAction data' w'
      = (mkOutcome
           (Success view (Some (getTranslations "auth.messages" "emailVerified")))
           [], w'') /\
      getProp view "email" = JsString (RegisterInput.email validated) /\
      getProp view "emailVerified" = JsDate (clock w) /\
      tokens w'' = tokens w.
Proof.
  intros w w' data data' validated r msg out Hinv Hparse Hlower Hrun Hparse'.
  eapply registerAction_Success in Hrun; [| exact Hparse].
  assert (Hissued : freshlyIssued w (verificationToken r) w')
    by (left; exists validated, r; auto).
  pose proof (freshlyIssued_Inv Hinv Hissued) as Hinv'.
  destruct (freshlyIssued_live Hissued) as (row & u & Hrow & Hexp & Hacc).
  pose proof (register_Ok_fresh_id _ _ Hrun) as Hid.
  apply register_Ok in Hrun.
  destruct Hrun as (Hnone & Hfresh & -> & Hus & Hts & Hclock).
  cbn [verificationToken] in *.
  destruct (verifyEmail_consumes (w := w') (nextToken SALT_BYTES w)
              (row := row) (u := u) Hinv' Hrow) as (Hverify & _ & _).
  { rewrite Hexp, Hclock. lia. }
  { exact Hacc. }
  assert (Hrow' : row = newToken (RegisterInput.email validated) SALT_BYTES w).
  { unfold tokenRow, findUnique in Hrow. rewrite Hts in Hrow.
    assert (Hfound :
              find (fun r0 => token r0 =? nextToken SALT_BYTES w)
                (tokens w
                 ++ [newToken (RegisterInput.email validated) SALT_BYTES w])
              = Some (newToken (RegisterInput.email validated) SALT_BYTES w))
      by (apply (find_snoc_key token); [exact Hfresh | reflexivity]).
    congruence. }
  assert (Hu : u = newAccount validated w).
  { unfold accountFor, findUnique in Hacc, Hnone. rewrite Hus, Hrow' in Hacc.
    cbn [identifier newToken] in Hacc.
    rewrite find_app_none in Hacc by exact Hnone.
    cbn [find newAccount email] in Hacc.
    rewrite Hlower, String.eqb_refl in Hacc. now injection Hacc. }
  eexists _, _. split.
  { unfold authActions.verifyEmailAction. rewrite Hparse'.
    cbn [VerifyEmailInput.token]. rewrite Hverify. reflexivity. }
  subst u. rewrite Hclock.
  split; [reflexivity |]. split; [reflexivity |].
  cbn [tokens set_tokens]. rewrite Hts, filter_app.
  cbn [filter newToken token]. rewrite String.eqb_refl. cbn [negb].
  rewrite app_nil_r. apply filter_all. intros r0 Hin.
  destruct (String.eqb_spec (token r0) (nextToken SALT_BYTES w)) as [E |];
    [| reflexivity].
  exfalso. apply Hfresh. rewrite <- E. now apply in_map.
Qed.

Lemma handleAuthError_is_Failure (T : Type) (e : Exn) :
  exists msg out,
    authActions.handleAuthError (T := T) (CaughtThrow e)
    = mkOutcome (Failure msg None) out.
Proof.
  destruct e as [[c m] | c]; [destruct c |]; cbn; eauto.
Qed.

(** X26: [getUserAction] never changes the state.  For an id that no
    account has it answers with the translated [userNotFound] message; for
    the id of an account, ids being unique, it answers with the view of that
    account, which has no [password] property. *)
Theorem X26_getUserAction :
  forall (w : World) (userId : string),
    (~ In userId (map id (users w)) ->
     authActions.getUserAction userId w
     = (mkOutcome
          (Failure (getTranslations "auth.messages" "userNotFound") None) [],
        w)) /\
    (forall u,
        NoDup (map id (users w)) -> In u (users w) -> id u = userId ->
        authActions.getUserAction userId w
        = (mkOutcome (Success (authService.toUserDTO u) None) [], w) /\
        omitsCredential (authService.toUserDTO u)).
Proof.
  intros w userId. split.
  - intros Hmissing.
    unfold authActions.getUserAction, authService.getUserById,
      userRepository.findById, bind, get, ret, findUnique.
    now rewrite (find_key_notin id _ _ Hmissing).
  - intros u Hnd Hin <-. split; [| apply toUserDTO_omitsCredential].
    unfold authActions.getUserAction, authService.getUserById,
      userRepository.findById, bind, get, ret, findUnique.
    now rewrite (find_key_unique id _ _ Hnd Hin).
Qed.

(** X27: the answer of a successful [resendVerificationAction] carries the
    new token; on a well-formed state, handing it to [verifyEmailAction]
    right away verifies the account the address was resolved to. *)
Theorem X27_resend_answer_suffices_to_verify :
  forall (w w' : World) (email_ token_ : string) (data' : Unknown)
         (msg : option string) (out : list string),
    Inv w ->
    authActions.resendVerificationAction email_ w
    = (mkOutcome (Success (TokenData.mk token_) msg) out, w') ->
    verifyEmailSchema_parse data' = inr (VerifyEmailInput.mk token_) ->
    exists view w'',
      authActions.verifyEmailAction data' w'
      = (mkOutcome
           (Success view (Some (getTranslations "auth.messages" "emailVerified")))
           [], w'') /\
      getProp view "email" = JsString (toLowerCase email_) /\
      getProp view "emailVerified" = JsDate (clock w).
Proof.
  intros w w' email_ token_ data' msg out Hinv Hrun Hparse'.
  unfold authActions.resendVerificationAction in Hrun.
  destruct (authService.resendVerification email_ w) as [[t0 | e] w0] eqn:Hsvc.
  2:{ exfalso. destruct (handleAuthError_is_Failure TokenData.t e)
        as (m & o & Hfail).
      rewrite Hfail in Hrun. discriminate Hrun. }
  injection Hrun as -> _ _ ->.
  assert (Hissued : freshlyIssued w token_ w') by (right; now exists email_).
  pose proof (freshlyIssued_Inv Hinv Hissued) as Hinv'.
  destruct (freshlyIssued_live Hissued) as (row & u & Hrow & Hexp & Hacc).
  apply resendVerification_Ok in Hsvc. cbv zeta in Hsvc.
  destruct Hsvc as ((u0 & Hacc0 & _) & Hfresh & -> & Hus & Hts & Hclock).
  destruct (verifyEmail_consumes (w := w') (nextToken 0 w)
              (row := row) (u := u) Hinv' Hrow) as (Hverify & _ & _).
  { rewrite Hexp, Hclock. lia. }
  { exact Hacc. }
  destruct (accountFor_Some _ _ Hacc) as [_ Hmail].
  assert (Hid : identifier row = email_).
  { unfold tokenRow, findUnique in Hrow. rewrite Hts in Hrow.
    assert (Hfound :
              find (fun r0 => token r0 =? nextToken 0 w)
                (deleteMany (fun r0 => identifier r0 =? email_) (tokens w)
                 ++ [newToken email_ 0 w])
              = Some (newToken email_ 0 w))
      by (apply (find_snoc_key token); [exact Hfresh | reflexivity]).
    rewrite Hfound in Hrow. now injection Hrow as <-. }
  eexists _, _. split.
  { unfold authActions.verifyEmailAction. rewrite Hparse'.
    cbn [VerifyEmailInput.token]. rewrite Hverify. reflexivity. }
  rewrite Hclock. split; [| reflexivity].
  cbn [getProp authService.toUserDTO String.eqb Ascii.eqb Bool.eqb markVerified
       email].
  now rewrite Hmail, Hid.
Qed.

End ActionFacts.

End Extras.

(* ------------------------------------------------------------------ *)
(** ** The statements at concrete inputs *)

#[local] Existing Instance Demo.hasher.

(** Decides [Inv] on a closed state. *)
Ltac solve_Inv :=
  constructor; vm_compute;
  repeat first
    [ apply NoDup_nil | apply NoDup_cons | apply Forall_nil | apply Forall_cons
    | reflexivity
    | left; reflexivity
    | let Hin := fresh "Hin" in intros Hin; intuition discriminate ].

(** Alice's registration token, followed one second after it was issued. *)
Lemma C1_witness :
  Inv Demo.empty /\
  freshlyIssued Demo.empty Demo.T1 Demo.registered /\
  (1000 <= clock Demo.empty + 24 * 60 * 60 * 1000)%Z /\
  exists row dto w1 u',
    tokenRow Demo.registered Demo.T1 = Some row /\
    authService.verifyEmail Demo.T1 (set_clock 1000 Demo.registered)
    = (Ok dto, w1) /\
    getProp dto "emailVerified" = JsDate 1000 /\
    accountFor w1 (identifier row) = Some u' /\
    emailVerified u' = Some 1000%Z /\
    tokenRow w1 Demo.T1 = None /\
    ~ In Demo.T1 (map token (tokens w1)) /\
    forall t2,
      authService.verifyEmail Demo.T1 (set_clock t2 w1)
      = (Throw InvalidOrExpiredToken, set_clock t2 w1).
Proof.
  assert (Hinv : Inv Demo.empty) by solve_Inv.
  assert (Hissued : freshlyIssued Demo.empty Demo.T1 Demo.registered).
  { left. exists Demo.alice.
    exists (mkRegisterResult (authService.toUserDTO
                                (newAccount Demo.alice Demo.empty)) Demo.T1).
    repeat split; vm_compute; reflexivity. }
  assert (Hlive : (1000 <= clock Demo.empty + 24 * 60 * 60 * 1000)%Z)
    by (vm_compute; discriminate).
  split; [exact Hinv |]. split; [exact Hissued |]. split; [exact Hlive |].
  exact (@C1_fresh_token_verifies_exactly_once Demo.hasher Demo.empty
           Demo.registered Demo.T1 1000 Hinv Hissued Hlive).
Defined.

(** A second registration under Alice's address, typed in capitals. *)
Lemma C2_witness :
  let data := RegisterInput.mk "Alice again" "A@EXAMPLE.COM" "0ther$ecret" in
  let u := newAccount Demo.alice Demo.empty in
  In u (users Demo.registered) /\
  email u = toLowerCase (RegisterInput.email data) /\
  authService.register data Demo.registered
  = (Throw AccountConflict, Demo.registered).
Proof.
  cbv zeta.
  assert (Hin : In (newAccount Demo.alice Demo.empty) (users Demo.registered))
    by (left; vm_compute; reflexivity).
  assert (Hmail : email (newAccount Demo.alice Demo.empty)
                  = toLowerCase "A@EXAMPLE.COM")
    by (vm_compute; reflexivity).
  split; [exact Hin |]. split; [exact Hmail |].
  exact (@C2_second_registration_conflicts Demo.hasher Demo.registered
           (RegisterInput.mk "Alice again" "A@EXAMPLE.COM" "0ther$ecret")
           _ Hin Hmail).
Defined.

(** A login to Alice's account with a wrong secret. *)
Lemma C4_witness :
  let data := LoginInput.mk "a@example.com" "wrong" in
  let u := newAccount Demo.alice Demo.empty in
  userRepository.findByEmail (LoginInput.email data) Demo.registered
  = (Ok (Some u), Demo.registered) /\
  bcrypt_compare (LoginInput.password data)
    (bcrypt_hash "Sup3r$ecret" (map Demo.demo_entropy (seq 0 SALT_BYTES)))
  = false /\
  authService.login data Demo.registered
  = (Throw InvalidCredentials, Demo.registered).
Proof.
  cbv zeta.
  assert (Hfind : userRepository.findByEmail "a@example.com" Demo.registered
                  = (Ok (Some (newAccount Demo.alice Demo.empty)),
                     Demo.registered))
    by (vm_compute; reflexivity).
  assert (Hcmp : bcrypt_compare "wrong"
                   (bcrypt_hash "Sup3r$ecret"
                      (map Demo.demo_entropy (seq 0 SALT_BYTES))) = false)
    by (vm_compute; reflexivity).
  split; [exact Hfind |]. split; [exact Hcmp |].
  apply (@C4_login_failures_share_one_error Demo.hasher Demo.registered
           (LoginInput.mk "a@example.com" "wrong") _ Hfind).
  right. right. eexists _, _. split; [reflexivity |].
  split; [| exact Hcmp]. vm_compute. reflexivity.
Defined.

(** Alice logs in before and after following her link, typing her address
    with capitals. *)
Lemma C5_witness :
  let data := LoginInput.mk "A@Example.com" "Sup3r$ecret" in
  let u := newAccount Demo.alice Demo.empty in
  let h := bcrypt_hash "Sup3r$ecret" (map Demo.demo_entropy (seq 0 SALT_BYTES)) in
  Inv Demo.registered /\
  accountFor Demo.registered (LoginInput.email data) = Some u /\
  password u = Some h /\
  h <> EmptyString /\
  bcrypt_compare (LoginInput.password data) h = true /\
  emailVerified u = None /\
  authService.login data Demo.registered
  = (Throw EmailNotVerified, Demo.registered) /\
  exists dto w' view,
    authService.verifyEmail Demo.T1 Demo.registered = (Ok dto, w') /\
    authService.login data (set_clock 1000 w') = (Ok view, set_clock 1000 w') /\
    omitsCredential view.
Proof.
  cbv zeta.
  assert (Hinv : Inv Demo.registered) by solve_Inv.
  assert (Hacc : accountFor Demo.registered "A@Example.com"
                 = Some (newAccount Demo.alice Demo.empty))
    by (vm_compute; reflexivity).
  assert (Hpw : password (newAccount Demo.alice Demo.empty)
                = Some (bcrypt_hash "Sup3r$ecret"
                          (map Demo.demo_entropy (seq 0 SALT_BYTES))))
    by (vm_compute; reflexivity).
  assert (Hne : bcrypt_hash "Sup3r$ecret"
                  (map Demo.demo_entropy (seq 0 SALT_BYTES)) <> EmptyString)
    by (vm_compute; discriminate).
  assert (Hcmp : bcrypt_compare "Sup3r$ecret"
                   (bcrypt_hash "Sup3r$ecret"
                      (map Demo.demo_entropy (seq 0 SALT_BYTES))) = true)
    by (vm_compute; reflexivity).
  assert (Hunverified : emailVerified (newAccount Demo.alice Demo.empty) = None)
    by reflexivity.
  destruct (@C5_login_gated_by_verification Demo.hasher Demo.registered
              (LoginInput.mk "A@Example.com" "Sup3r$ecret") _ _
              Hinv Hacc Hpw Hne Hcmp) as [Hbefore Hafter].
  repeat (split; [assumption |]).
  split; [exact (proj1 (Hbefore Hunverified)) |].
  assert (Hrow : tokenRow Demo.registered Demo.T1
                 = Some (newToken "a@example.com" SALT_BYTES Demo.empty))
    by (vm_compute; reflexivity).
  assert (Hrun : authService.verifyEmail Demo.T1 Demo.registered
                 = (Ok (authService.toUserDTO
                          (markVerified 0 (newAccount Demo.alice Demo.empty))),
                    Demo.after (authService.verifyEmail Demo.T1)
                      Demo.registered))
    by (vm_compute; reflexivity).
  destruct (Hafter _ _ _ _ Hrow ltac:(vm_compute; reflexivity) Hrun 1000%Z)
    as (view & Hlogin & _ & _ & Homits).
  eexists _, _, view. split; [exact Hrun |]. split; [exact Hlogin | exact Homits].
Defined.

(** Alice's link, followed a day and a millisecond after registration. *)
Lemma C6_witness :
  let row := newToken "a@example.com" SALT_BYTES Demo.empty in
  Inv Demo.stale /\
  tokenRow Demo.stale Demo.T1 = Some row /\
  (expires row < clock Demo.stale)%Z /\
  exists w',
    authService.verifyEmail Demo.T1 Demo.stale
    = (Throw InvalidOrExpiredToken, w') /\
    tokens w'
    = deleteMany (fun r => identifier r =? identifier row) (tokens Demo.stale) /\
    tokenRow w' Demo.T1 = None /\
    ~ In Demo.T1 (map token (tokens w')) /\
    users w' = users Demo.stale.
Proof.
  cbv zeta.
  assert (Hinv : Inv Demo.stale) by solve_Inv.
  assert (Hrow : tokenRow Demo.stale Demo.T1
                 = Some (newToken "a@example.com" SALT_BYTES Demo.empty))
    by (vm_compute; reflexivity).
  assert (Hpast : (expires (newToken "a@example.com" SALT_BYTES Demo.empty)
                   < clock Demo.stale)%Z)
    by (vm_compute; reflexivity).
  split; [exact Hinv |]. split; [exact Hrow |]. split; [exact Hpast |].
  exact (@C6_expired_token_is_deleted Demo.stale Demo.T1 _
           Hinv Hrow Hpast).
Defined.

(** Alice's registration on empty tables. *)
Lemma C7_witness :
  Inv Demo.empty /\
  toLowerCase (RegisterInput.email Demo.alice) = RegisterInput.email Demo.alice /\
  accountFor Demo.empty (RegisterInput.email Demo.alice) = None /\
  ~ In (nextCuid Demo.empty) (map id (users Demo.empty)) /\
  ~ In (nextToken SALT_BYTES Demo.empty) (map token (tokens Demo.empty)) /\
  exists r w',
    authService.register Demo.alice Demo.empty = (Ok r, w') /\
    getProp (user r) "emailVerified" = JsNull /\
    (exists u, accountFor w' (RegisterInput.email Demo.alice) = Some u /\
               emailVerified u = None /\
               user r = authService.toUserDTO u) /\
    tokensFor w' (RegisterInput.email Demo.alice)
    = [mkVerificationToken (RegisterInput.email Demo.alice)
         (verificationToken r)
         (clock Demo.empty + 24 * 60 * 60 * 1000)%Z].
Proof.
  assert (Hinv : Inv Demo.empty) by solve_Inv.
  assert (Hlower : toLowerCase (RegisterInput.email Demo.alice)
                   = RegisterInput.email Demo.alice)
    by (vm_compute; reflexivity).
  assert (Hnone : accountFor Demo.empty (RegisterInput.email Demo.alice) = None)
    by reflexivity.
  assert (Hid : ~ In (nextCuid Demo.empty) (map id (users Demo.empty)))
    by (simpl; tauto).
  assert (Htok : ~ In (nextToken SALT_BYTES Demo.empty)
                   (map token (tokens Demo.empty)))
    by (simpl; tauto).
  repeat (split; [assumption |]).
  exact (@C7_register_fresh_email Demo.hasher Demo.empty Demo.alice
           Hinv Hlower Hnone Hid Htok).
Defined.

(** The view returned by Alice's registration. *)
Lemma C8_witness :
  exists r w',
    authService.register Demo.alice Demo.empty = (Ok r, w') /\
    ownKeys (user r) = UserDTO_keys /\ omitsCredential (user r).
Proof.
  exists (mkRegisterResult (authService.toUserDTO
                              (newAccount Demo.alice Demo.empty)) Demo.T1),
         Demo.registered.
  assert (Hrun : authService.register Demo.alice Demo.empty
                 = (Ok (mkRegisterResult
                          (authService.toUserDTO
                             (newAccount Demo.alice Demo.empty)) Demo.T1),
                    Demo.registered))
    by (vm_compute; reflexivity).
  split; [exact Hrun |].
  exact (proj1 (@C8_views_omit_credential Demo.hasher Demo.empty) _ _ _ Hrun).
Defined.

(** The scenario of the specification, run on the demo environment:
    registration, verification, replay of the token, login with the address
    in another letter case, login with a wrong secret. *)
Example spec_scenario :
  let T := Demo.T1 in
  let w1 := Demo.registered in
  let w2 := Demo.after (authService.verifyEmail T) (set_clock 1000 w1) in
  (exists view, authService.register Demo.alice Demo.empty
                = (Ok (mkRegisterResult view T), w1)) /\
  (exists view, authService.verifyEmail T (set_clock 1000 w1) = (Ok view, w2) /\
                getProp view "emailVerified" = JsDate 1000) /\
  authService.verifyEmail T w2 = (Throw InvalidOrExpiredToken, w2) /\
  (exists view,
      authService.login (LoginInput.mk "A@Example.com" "Sup3r$ecret") w2
      = (Ok view, w2)) /\
  authService.login (LoginInput.mk "a@example.com" "wrong") w2
  = (Throw InvalidCredentials, w2).
Proof.
  cbv zeta.
  split.
  { exists (authService.toUserDTO (newAccount Demo.alice Demo.empty)).
    vm_compute. reflexivity. }
  split.
  { exists (authService.toUserDTO
              (markVerified 1000 (newAccount Demo.alice Demo.empty))).
    split; vm_compute; reflexivity. }
  split; [vm_compute; reflexivity |].
  split; [| vm_compute; reflexivity].
  exists (authService.toUserDTO
            (markVerified 1000 (newAccount Demo.alice Demo.empty))).
  vm_compute. reflexivity.
Qed.

(* ------------------------------------------------------------------ *)
(** ** The further properties at concrete inputs *)

#[local] Existing Instance Demo2.boundary.

(** Two states that differ in the clock only draw the same token. *)
Lemma X2_witness :
  fst (generateVerificationToken Demo.empty)
  = fst (generateVerificationToken (set_clock 5 Demo.empty)) /\
  map (entropy Demo.empty) (seq (drawn Demo.empty) 32)
  = map (entropy (set_clock 5 Demo.empty)) (seq (drawn (set_clock 5 Demo.empty)) 32).
Proof.
  assert (Hsame : fst (generateVerificationToken Demo.empty)
                  = fst (generateVerificationToken (set_clock 5 Demo.empty)))
    by reflexivity.
  split; [exact Hsame |].
  exact (X2_equal_tokens_come_from_equal_bytes Hsame).
Defined.

(** Alice's token row created on empty tables. *)
Lemma X4_witness :
  let data := newToken "a@example.com" SALT_BYTES Demo.empty in
  ~ In (token data) (map token (tokens Demo.empty)) /\
  exists w',
    verificationTokenRepository.create data Demo.empty = (Ok data, w') /\
    verificationTokenRepository.findByTokenValue (token data) w'
    = (Ok (Some data), w').
Proof.
  cbv zeta.
  assert (Hfresh : ~ In (token (newToken "a@example.com" SALT_BYTES Demo.empty))
                     (map token (tokens Demo.empty)))
    by (simpl; tauto).
  split; [exact Hfresh |].
  destruct (proj1 (X4_token_create_then_find Demo.empty
                     (newToken "a@example.com" SALT_BYTES Demo.empty)) Hfresh)
    as (w' & Hrun & _ & Hfind & _).
  exists w'. split; assumption.
Defined.

(** Alice's link deleted under a wrong identifier, then under the right one. *)
Lemma X5_witness :
  let row := newToken "a@example.com" SALT_BYTES Demo.empty in
  verificationTokenRepository.delete "A@Example.com" Demo.T1 Demo.registered
  = (Throw P2025, Demo.registered) /\
  exists w',
    verificationTokenRepository.delete "a@example.com" Demo.T1 Demo.registered
    = (Ok tt, w') /\
    tokenRow w' Demo.T1 = None.
Proof.
  cbv zeta.
  destruct (X5_token_delete Demo.registered "A@Example.com" Demo.T1)
    as [Hmissing _].
  destruct (X5_token_delete Demo.registered "a@example.com" Demo.T1)
    as [_ Hstored].
  split.
  - apply Hmissing. intros r Hin [Hid _]. vm_compute in Hin.
    destruct Hin as [<- | []]. vm_compute in Hid. discriminate.
  - destruct (Hstored (newToken "a@example.com" SALT_BYTES Demo.empty))
      as (w' & Hrun & _ & Hgone & _).
    + vm_compute. repeat constructor. intros [].
    + left. vm_compute. reflexivity.
    + reflexivity.
    + vm_compute. reflexivity.
    + exists w'. split; assumption.
Defined.

(** An account created by the repository on empty tables. *)
Lemma X8_witness :
  toLowerCase "a@example.com" = "a@example.com" /\
  ~ In (nextCuid Demo.empty) (map id (users Demo.empty)) /\
  ~ In "a@example.com" (map email (users Demo.empty)) /\
  exists u w',
    userRepository.create "a@example.com" "Alice" "hash" None Demo.empty
    = (Ok u, w') /\
    userRepository.findByEmail "A@Example.com" w' = (Ok (Some u), w').
Proof.
  assert (Hlower : toLowerCase "a@example.com" = "a@example.com")
    by (vm_compute; reflexivity).
  assert (Hid : ~ In (nextCuid Demo.empty) (map id (users Demo.empty)))
    by (simpl; tauto).
  assert (Hmail : ~ In "a@example.com" (map email (users Demo.empty)))
    by (simpl; tauto).
  repeat (split; [assumption |]).
  destruct (proj1 (X8_user_create_then_find Demo.empty "a@example.com" "Alice"
                     "hash" None) Hlower Hid Hmail)
    as (u & w' & Hrun & _ & _ & _ & _ & _ & _ & _ & Hfind).
  exists u, w'. split; [exact Hrun |].
  apply Hfind. vm_compute. reflexivity.
Defined.

(** Bob, stored with capitals, is not found under his own address. *)
Lemma X9_witness :
  let u := newAccount Demo2.bob Demo.empty in
  In u (users Demo2.shouting) /\
  toLowerCase (email u) <> email u /\
  userRepository.findByEmail "Bob@Example.com" Demo2.shouting
  <> (Ok (Some u), Demo2.shouting).
Proof.
  cbv zeta.
  assert (Hin : In (newAccount Demo2.bob Demo.empty) (users Demo2.shouting))
    by (left; vm_compute; reflexivity).
  assert (Hmixed : toLowerCase (email (newAccount Demo2.bob Demo.empty))
                   <> email (newAccount Demo2.bob Demo.empty))
    by (vm_compute; discriminate).
  split; [exact Hin |]. split; [exact Hmixed |].
  exact (X9_mixed_case_rows_are_never_found Hin Hmixed (e := "Bob@Example.com")).
Defined.

(** Alice's hash is replaced; the old secret no longer logs in. *)
Lemma X10_witness :
  let data := LoginInput.mk "a@example.com" "Sup3r$ecret" in
  let u := newAccount Demo.alice Demo.empty in
  Inv Demo.registered /\
  accountFor Demo.registered (LoginInput.email data) = Some u /\
  "replaced" <> EmptyString /\
  exists w',
    userRepository.updatePassword (id u) "replaced" Demo.registered
    = (Ok (withPassword "replaced" 0 u), w') /\
    authService.login data w' = (Throw InvalidCredentials, w').
Proof.
  cbv zeta.
  assert (Hinv : Inv Demo.registered) by solve_Inv.
  assert (Hacc : accountFor Demo.registered "a@example.com"
                 = Some (newAccount Demo.alice Demo.empty))
    by (vm_compute; reflexivity).
  assert (Hne : "replaced" <> EmptyString) by discriminate.
  split; [exact Hinv |]. split; [exact Hacc |]. split; [exact Hne |].
  destruct (proj2 (X10_updatePassword_then_login Demo.registered)
              (LoginInput.mk "a@example.com" "Sup3r$ecret") _ "replaced"
              Hinv Hacc Hne) as (w' & Hrun & _ & Hlogin).
  exists w'. split; [exact Hrun |]. exact Hlogin.
Defined.

(** Alice's account is deleted; her link then names nobody. *)
Lemma X11_witness :
  let row := newToken "a@example.com" SALT_BYTES Demo.empty in
  let u := newAccount Demo.alice Demo.empty in
  Inv Demo.registered /\
  tokenRow Demo.registered Demo.T1 = Some row /\
  (clock Demo.registered <= expires row)%Z /\
  accountFor Demo.registered (identifier row) = Some u /\
  exists w',
    userRepository.delete (id u) Demo.registered = (Ok u, w') /\
    tokens w' = tokens Demo.registered /\
    accountFor w' (identifier row) = None /\
    authService.verifyEmail Demo.T1 w' = (Throw AccountNotFound, w').
Proof.
  cbv zeta.
  assert (Hinv : Inv Demo.registered) by solve_Inv.
  assert (Hrow : tokenRow Demo.registered Demo.T1
                 = Some (newToken "a@example.com" SALT_BYTES Demo.empty))
    by (vm_compute; reflexivity).
  assert (Hlive : (clock Demo.registered
                   <= expires (newToken "a@example.com" SALT_BYTES Demo.empty))%Z)
    by (vm_compute; discriminate).
  assert (Hacc : accountFor Demo.registered
                   (identifier (newToken "a@example.com" SALT_BYTES Demo.empty))
                 = Some (newAccount Demo.alice Demo.empty))
    by (vm_compute; reflexivity).
  repeat (split; [assumption |]).
  exact (X11_deleted_account_leaves_its_tokens Demo.T1 Hinv Hrow Hlive Hacc).
Defined.

(** An unknown token, and Alice's link after her account was deleted. *)
Lemma X12_witness :
  let row := newToken "a@example.com" SALT_BYTES Demo.empty in
  tokenRow Demo.registered "no such token" = None /\
  authService.verifyEmail "no such token" Demo.registered
  = (Throw InvalidOrExpiredToken, Demo.registered) /\
  tokenRow Demo2.orphaned Demo.T1 = Some row /\
  accountFor Demo2.orphaned (identifier row) = None /\
  authService.verifyEmail Demo.T1 Demo2.orphaned
  = (Throw AccountNotFound, Demo2.orphaned).
Proof.
  cbv zeta.
  assert (Hnone : tokenRow Demo.registered "no such token" = None)
    by (vm_compute; reflexivity).
  assert (Hrow : tokenRow Demo2.orphaned Demo.T1
                 = Some (newToken "a@example.com" SALT_BYTES Demo.empty))
    by (vm_compute; reflexivity).
  assert (Hacc : accountFor Demo2.orphaned
                   (identifier (newToken "a@example.com" SALT_BYTES Demo.empty))
                 = None)
    by (vm_compute; reflexivity).
  split; [exact Hnone |].
  split; [exact (proj1 (X12_verifyEmail_failures_without_effect
                          Demo.registered "no such token") Hnone) |].
  split; [exact Hrow |]. split; [exact Hacc |].
  apply (proj2 (X12_verifyEmail_failures_without_effect Demo2.orphaned Demo.T1)
           _ Hrow); [vm_compute; discriminate | exact Hacc].
Defined.

(** Alice's stale link takes the row of its identifier with it. *)
Lemma X13_witness :
  let row := newToken "a@example.com" SALT_BYTES Demo.empty in
  tokenRow Demo.stale Demo.T1 = Some row /\
  (expires row < clock Demo.stale)%Z /\
  ~ In row (tokens (snd (authService.verifyEmail Demo.T1 Demo.stale))).
Proof.
  cbv zeta.
  assert (Hrow : tokenRow Demo.stale Demo.T1
                 = Some (newToken "a@example.com" SALT_BYTES Demo.empty))
    by (vm_compute; reflexivity).
  assert (Hpast : (expires (newToken "a@example.com" SALT_BYTES Demo.empty)
                   < clock Demo.stale)%Z)
    by (vm_compute; reflexivity).
  split; [exact Hrow |]. split; [exact Hpast |].
  apply (proj1 (X13_expired_token_takes_its_siblings Demo.stale Demo.T1
                  Hrow Hpast)).
  - left. vm_compute. reflexivity.
  - reflexivity.
Defined.

(** A resend for an address nobody registered. *)
Lemma X14_witness :
  accountFor Demo.registered "nobody@example.com" = None /\
  authService.resendVerification "nobody@example.com" Demo.registered
  = (Throw AccountNotFound, Demo.registered).
Proof.
  assert (Hnone : accountFor Demo.registered "nobody@example.com" = None)
    by (vm_compute; reflexivity).
  split; [exact Hnone |].
  exact (proj1 (X14_resend_failures_without_effect Demo.registered
                  "nobody@example.com") Hnone).
Defined.

(** Alice asks again with her address as stored: the first link is dead. *)
Lemma X15_witness :
  let old := newToken "a@example.com" SALT_BYTES Demo.empty in
  Inv Demo.registered /\
  authService.resendVerification "a@example.com" Demo.registered
  = (Ok Demo.T2, Demo2.reissued) /\
  In old (tokensFor Demo.registered "a@example.com") /\
  token old <> Demo.T2 /\
  tokensFor Demo2.reissued "a@example.com"
  = [mkVerificationToken "a@example.com" Demo.T2
       (clock Demo.registered + 24 * 60 * 60 * 1000)%Z] /\
  authService.verifyEmail (token old) (set_clock 1000 Demo2.reissued)
  = (Throw InvalidOrExpiredToken, set_clock 1000 Demo2.reissued).
Proof.
  cbv zeta.
  assert (Hinv : Inv Demo.registered) by solve_Inv.
  assert (Hrun : authService.resendVerification "a@example.com" Demo.registered
                 = (Ok Demo.T2, Demo2.reissued))
    by (vm_compute; reflexivity).
  assert (Hold : In (newToken "a@example.com" SALT_BYTES Demo.empty)
                   (tokensFor Demo.registered "a@example.com"))
    by (left; vm_compute; reflexivity).
  assert (Hneq : token (newToken "a@example.com" SALT_BYTES Demo.empty)
                 <> Demo.T2)
    by (vm_compute; discriminate).
  destruct (X15_resend_replaces_rows_of_the_identifier "a@example.com" Hinv Hrun)
    as (Hone & _ & _ & Hdead).
  repeat (split; [assumption |]).
  exact (Hdead _ 1000%Z Hold Hneq).
Defined.

(** Alice's address in two letter cases. *)
Lemma X17_witness :
  toLowerCase "A@Example.com" = toLowerCase "a@EXAMPLE.com" /\
  authService.login (LoginInput.mk "A@Example.com" "Sup3r$ecret") Demo.registered
  = authService.login (LoginInput.mk "a@EXAMPLE.com" "Sup3r$ecret")
      Demo.registered.
Proof.
  assert (Hsame : toLowerCase "A@Example.com" = toLowerCase "a@EXAMPLE.com")
    by (vm_compute; reflexivity).
  split; [exact Hsame |].
  exact (proj1 (X17_lookups_ignore_letter_case Demo.registered "A@Example.com"
                  "a@EXAMPLE.com" "Sup3r$ecret" Hsame)).
Defined.

(** Alice's registration, then a lookup with capitals. *)
Lemma X18_witness :
  let r := mkRegisterResult
             (authService.toUserDTO (newAccount Demo.alice Demo.empty)) Demo.T1 in
  toLowerCase (RegisterInput.email Demo.alice) = RegisterInput.email Demo.alice /\
  authService.register Demo.alice Demo.empty = (Ok r, Demo.registered) /\
  authService.getUserByEmail "A@Example.com" Demo.registered
  = (Ok (Some (user r)), Demo.registered).
Proof.
  cbv zeta.
  assert (Hlower : toLowerCase (RegisterInput.email Demo.alice)
                   = RegisterInput.email Demo.alice)
    by (vm_compute; reflexivity).
  assert (Hrun : authService.register Demo.alice Demo.empty
                 = (Ok (mkRegisterResult
                          (authService.toUserDTO
                             (newAccount Demo.alice Demo.empty)) Demo.T1),
                    Demo.registered))
    by (vm_compute; reflexivity).
  split; [exact Hlower |]. split; [exact Hrun |].
  apply (proj1 (X18_register_then_lookup Demo.empty Demo.alice Hlower Hrun)).
  vm_compute. reflexivity.
Defined.

(** Alice registers while the token she will draw is already stored. *)
Lemma X19_witness :
  toLowerCase (RegisterInput.email Demo.alice) = RegisterInput.email Demo.alice /\
  accountFor Demo2.crowded (RegisterInput.email Demo.alice) = None /\
  ~ In (nextCuid Demo2.crowded) (map id (users Demo2.crowded)) /\
  In (nextToken SALT_BYTES Demo2.crowded) (map token (tokens Demo2.crowded)) /\
  exists w',
    authService.register Demo.alice Demo2.crowded = (Throw P2002, w') /\
    tokens w' = tokens Demo2.crowded /\
    accountFor w' (RegisterInput.email Demo.alice)
    = Some (newAccount Demo.alice Demo2.crowded) /\
    emailVerified (newAccount Demo.alice Demo2.crowded) = None /\
    authService.register Demo.alice w' = (Throw AccountConflict, w').
Proof.
  assert (Hlower : toLowerCase (RegisterInput.email Demo.alice)
                   = RegisterInput.email Demo.alice)
    by (vm_compute; reflexivity).
  assert (Hnone : accountFor Demo2.crowded (RegisterInput.email Demo.alice) = None)
    by reflexivity.
  assert (Hid : ~ In (nextCuid Demo2.crowded) (map id (users Demo2.crowded)))
    by (simpl; tauto).
  assert (Hused : In (nextToken SALT_BYTES Demo2.crowded)
                    (map token (tokens Demo2.crowded)))
    by (left; vm_compute; reflexivity).
  repeat (split; [assumption |]).
  exact (X19_register_token_collision Demo2.crowded Demo.alice
           Hlower Hnone Hid Hused).
Defined.

(** The state in which Alice followed both her links. *)
Lemma X20_witness : reachable Demo.later /\ Inv Demo.later.
Proof.
  assert (Hreach : reachable Demo.later).
  { unfold Demo.later, Demo.verified, Demo.resent, Demo.registered, Demo.after.
    apply reach_clock, reach_verifyEmail, reach_clock,
      reach_resendVerification, reach_register;
      [apply reach_init | vm_compute; reflexivity]. }
  split; [exact Hreach |]. exact (reachable_Inv Hreach).
Defined.

(** The secret of the specification's scenario. *)
Lemma X22_witness :
  passwordSchema_issues "Sup3r$ecret" = [] /\
  loginPassword_issues "Sup3r$ecret" = [].
Proof.
  assert (Hok : passwordSchema_issues "Sup3r$ecret" = [])
    by (vm_compute; reflexivity).
  split; [exact Hok |].
  exact (X22_registered_passwords_pass_the_login_rule "Sup3r$ecret" Hok).
Defined.

(** A login form with a wrong secret for Alice. *)
Lemma X24_witness :
  let validated := LoginInput.mk "a@example.com" "wrong" in
  loginSchema_parse Demo2.wrongLogin = inr validated /\
  authActions.loginAction Demo2.wrongLogin Demo.registered
  = (mkOutcome (Failure ErrorMessages.INVALID_CREDENTIALS None) [],
     Demo.registered).
Proof.
  cbv zeta.
  assert (Hparse : loginSchema_parse Demo2.wrongLogin
                   = inr (LoginInput.mk "a@example.com" "wrong"))
    by (vm_compute; reflexivity).
  split; [exact Hparse |].
  apply (@X24_loginAction_failures_share_one_answer Demo.hasher Demo2.boundary
           Demo.registered Demo2.wrongLogin _ Hparse).
  right. right. eexists _, _.
  split; [vm_compute; reflexivity |]. split; vm_compute; reflexivity.
Defined.

(** Alice's form, then the token of the answer. *)
Lemma X25_witness :
  let r := mkRegisterResult
             (authService.toUserDTO (newAccount Demo.alice Demo.empty)) Demo.T1 in
  Inv Demo.empty /\
  registerSchema_parse Demo2.aliceForm = inr Demo.alice /\
  authActions.registerAction Demo2.aliceForm Demo.empty
  = (mkOutcome (Success r (Some "auth.messages.registerSuccess")) [],
     Demo.registered) /\
  verifyEmailSchema_parse Demo2.aliceLink
  = inr (VerifyEmailInput.mk (verificationToken r)) /\
  exists view w'',
    authActions.verifyEmailAction Demo2.aliceLink Demo.registered
    = (mkOutcome
         (Success view (Some (getTranslations "auth.messages" "emailVerified")))
         [], w'') /\
    getProp view "email" = JsString (RegisterInput.email Demo.alice) /\
    getProp view "emailVerified" = JsDate (clock Demo.empty) /\
    tokens w'' = tokens Demo.empty.
Proof.
  cbv zeta.
  assert (Hinv : Inv Demo.empty) by solve_Inv.
  assert (Hparse : registerSchema_parse Demo2.aliceForm = inr Demo.alice)
    by (vm_compute; reflexivity).
  assert (Hlower : toLowerCase (RegisterInput.email Demo.alice)
                   = RegisterInput.email Demo.alice)
    by (vm_compute; reflexivity).
  assert (Hrun : authActions.registerAction Demo2.aliceForm Demo.empty
                 = (mkOutcome
                      (Success
                         (mkRegisterResult
                            (authService.toUserDTO
                               (newAccount Demo.alice Demo.empty)) Demo.T1)
                         (Some "auth.messages.registerSuccess")) [],
                    Demo.registered))
    by (vm_compute; reflexivity).
  assert (Hparse' : verifyEmailSchema_parse Demo2.aliceLink
                    = inr (VerifyEmailInput.mk Demo.T1))
    by (vm_compute; reflexivity).
  repeat (split; [assumption |]).
  exact (@X25_register_answer_suffices_to_verify Demo.hasher Demo2.boundary
           _ _ Demo2.aliceForm Demo2.aliceLink _ _ _ _
           Hinv Hparse Hlower Hrun Hparse').
Defined.

(** Alice looked up by her id. *)
Lemma X26_witness :
  let u := newAccount Demo.alice Demo.empty in
  NoDup (map id (users Demo.registered)) /\
  In u (users Demo.registered) /\
  authActions.getUserAction (id u) Demo.registered
  = (mkOutcome (Success (authService.toUserDTO u) None) [], Demo.registered).
Proof.
  cbv zeta.
  assert (Hnd : NoDup (map id (users Demo.registered)))
    by (vm_compute; repeat constructor; intros []).
  assert (Hin : In (newAccount Demo.alice Demo.empty) (users Demo.registered))
    by (left; vm_compute; reflexivity).
  split; [exact Hnd |]. split; [exact Hin |].
  exact (proj1 (proj2 (@X26_getUserAction Demo2.boundary
                         Demo.registered
                         (id (newAccount Demo.alice Demo.empty)))
                  _ Hnd Hin eq_refl)).
Defined.

(** Alice asks for the link again with capitals and follows the new one. *)
Lemma X27_witness :
  Inv Demo.registered /\
  authActions.resendVerificationAction "A@Example.com" Demo.registered
  = (mkOutcome
       (Success (TokenData.mk Demo.T2) (Some "auth.messages.verificationSent"))
       [], Demo.resent) /\
  verifyEmailSchema_parse Demo2.aliceSecondLink
  = inr (VerifyEmailInput.mk Demo.T2) /\
  exists view w'',
    authActions.verifyEmailAction Demo2.aliceSecondLink Demo.resent
    = (mkOutcome
         (Success view (Some (getTranslations "auth.messages" "emailVerified")))
         [], w'') /\
    getProp view "email" = JsString (toLowerCase "A@Example.com") /\
    getProp view "emailVerified" = JsDate (clock Demo.registered).
Proof.
  assert (Hinv : Inv Demo.registered) by solve_Inv.
  assert (Hrun : authActions.resendVerificationAction "A@Example.com"
                   Demo.registered
                 = (mkOutcome
                      (Success (TokenData.mk Demo.T2)
                         (Some "auth.messages.verificationSent")) [],
                    Demo.resent))
    by (vm_compute; reflexivity).
  assert (Hparse' : verifyEmailSchema_parse Demo2.aliceSecondLink
                    = inr (VerifyEmailInput.mk Demo.T2))
    by (vm_compute; reflexivity).
  repeat (split; [assumption |]).
  exact (@X27_resend_answer_suffices_to_verify Demo.hasher Demo2.boundary
           _ _ "A@Example.com" Demo.T2 Demo2.aliceSecondLink _ _
           Hinv Hrun Hparse').
Defined.
